(** * The real-time audio bridge between the WhatsApp media leg and the
      ElevenLabs streaming leg

    A shallow embedding of the audio path of the call server:
    - [Config]: the constants of [config/audio.config.js];
    - [Pcm]: 16-bit linear PCM as the typed arrays and Buffers hold it;
    - [Playback]: [audio/playback.js], the playback buffer and its paced
      timer, together with the part of the host (interval table, audio
      source, frames handed to the sink) the module acts on;
    - [Handler]: [handleElevenLabsAudio] of [handlers/elevenlabs.handler.js];
    - [Bridge]: [audio/bridge.js], the capture callback [audioSink.ondata]
      and [sendAudioToElevenLabs];
    - [Legacy]: the 16 kHz to 48 kHz upsampling [handleElevenLabsAudio] of
      [server-elevenlabs.js].

    Samples are integers in the signed 16-bit range, bytes are integers in
    [0, 256); JavaScript's module-level variables become the fields of an
    explicit state that every operation takes and returns. *)

From Stdlib Require Import ZArith QArith Qround Lia Lqa.
From stdpp Require Import base option list gmap strings.

Local Open Scope nat_scope.

(* ===================================================================== *)
(** ** config/audio.config.js *)
(* ===================================================================== *)

Module Config.

Record config := {
  ELEVENLABS_INPUT_SAMPLE_RATE : Z;
  WHATSAPP_SAMPLE_RATE : Z;
  FRAME_SIZE : nat;
  CHUNK_SIZE : nat
}.

(** The values the repository ships. *)
Definition audio_config : config := {|
  ELEVENLABS_INPUT_SAMPLE_RATE := 16000;
  WHATSAPP_SAMPLE_RATE := 48000;
  FRAME_SIZE := 480;
  CHUNK_SIZE := 4000
|}.

End Config.
Import Config.

(* ===================================================================== *)
(** ** 16-bit PCM: Int16Array elements and their bytes in a Buffer *)
(* ===================================================================== *)

Module Pcm.

(** The object passed to [audioSink.ondata] and to [audioSource.onData]. *)
Record audio_data := {
  samples : list Z;
  sampleRate : Z;          (* 0 stands for a missing (falsy) field *)
  bitsPerSample : Z;
  channelCount : nat;      (* 0 stands for a missing (falsy) field *)
  numberOfFrames : nat
}.

(** Storing a number into an [Int16Array] element wraps it modulo 2^16
    into [-32768, 32768). *)
Definition to_int16 (x : Z) : Z := ((x + 32768) mod 65536 - 32768)%Z.

Definition int16 (x : Z) : Prop := (-32768 <= x < 32768)%Z.

(** Reading [samples[i]]: out of range JavaScript yields [undefined],
    which an [Int16Array] store turns into 0. *)
Definition read (samples : list Z) (i : nat) : Z := default 0%Z (samples !! i).

(** [Buffer.from(int16array.buffer)]: two bytes per sample, low byte
    first (the array is taken to span its ArrayBuffer). *)
Definition int16_bytes (x : Z) : list Z :=
  [(x mod 256)%Z; ((x / 256) mod 256)%Z].

Definition bytes_of_samples (l : list Z) : list Z := l ≫= int16_bytes.

(** [new Int16Array(buf.buffer, buf.byteOffset, buf.length / 2)]: pairs of
    bytes read as little-endian signed 16-bit numbers; the element count
    is truncated to an integer, so a trailing single byte is not read. *)
Fixpoint samples_of_bytes (b : list Z) : list Z :=
  match b with
  | lo :: hi :: rest => to_int16 (lo + 256 * hi) :: samples_of_bytes rest
  | _ => []
  end.

End Pcm.
Import Pcm.

(* ===================================================================== *)
(** ** audio/playback.js *)
(* ===================================================================== *)

Module Playback.

(** The identity of an [RTCAudioSource] object. *)
Definition sink := nat.

(** The module's variables, and what they act on: the host's table of
    active intervals (each holding the [audioSource] its callback closed
    over), the session's current [audioSource], and the calls made to
    [audioSource.onData] so far, oldest first. *)
Record world := {
  elevenLabsAudioBuffer : list Z;
  audioPlaybackTimer : option nat;
  elevenLabsAudioCount : nat;
  intervals : gmap nat (option sink);
  next_handle : nat;
  session_audioSource : option sink;
  onData_calls : list (sink * audio_data)
}.

Definition set_buffer (b : list Z) (w : world) : world :=
  {| elevenLabsAudioBuffer := b;
     audioPlaybackTimer := audioPlaybackTimer w;
     elevenLabsAudioCount := elevenLabsAudioCount w;
     intervals := intervals w;
     next_handle := next_handle w;
     session_audioSource := session_audioSource w;
     onData_calls := onData_calls w |}.

Definition set_timer (t : option nat) (w : world) : world :=
  {| elevenLabsAudioBuffer := elevenLabsAudioBuffer w;
     audioPlaybackTimer := t;
     elevenLabsAudioCount := elevenLabsAudioCount w;
     intervals := intervals w;
     next_handle := next_handle w;
     session_audioSource := session_audioSource w;
     onData_calls := onData_calls w |}.

Definition set_count (c : nat) (w : world) : world :=
  {| elevenLabsAudioBuffer := elevenLabsAudioBuffer w;
     audioPlaybackTimer := audioPlaybackTimer w;
     elevenLabsAudioCount := c;
     intervals := intervals w;
     next_handle := next_handle w;
     session_audioSource := session_audioSource w;
     onData_calls := onData_calls w |}.

Definition setAudioSource (s : option sink) (w : world) : world :=
  {| elevenLabsAudioBuffer := elevenLabsAudioBuffer w;
     audioPlaybackTimer := audioPlaybackTimer w;
     elevenLabsAudioCount := elevenLabsAudioCount w;
     intervals := intervals w;
     next_handle := next_handle w;
     session_audioSource := s;
     onData_calls := onData_calls w |}.

(** [audioSource.onData(frame)]. *)
Definition onData (s : sink) (frame : audio_data) (w : world) : world :=
  {| elevenLabsAudioBuffer := elevenLabsAudioBuffer w;
     audioPlaybackTimer := audioPlaybackTimer w;
     elevenLabsAudioCount := elevenLabsAudioCount w;
     intervals := intervals w;
     next_handle := next_handle w;
     session_audioSource := session_audioSource w;
     onData_calls := onData_calls w ++ [(s, frame)] |}.

(** [setInterval(callback, 10)]: a fresh handle; the table remembers the
    [audioSource] constant the callback captured. *)
Definition setInterval (captured : option sink) (w : world) : nat * world :=
  let h := next_handle w in
  (h, {| elevenLabsAudioBuffer := elevenLabsAudioBuffer w;
         audioPlaybackTimer := audioPlaybackTimer w;
         elevenLabsAudioCount := elevenLabsAudioCount w;
         intervals := <[h := captured]> (intervals w);
         next_handle := S h;
         session_audioSource := session_audioSource w;
         onData_calls := onData_calls w |}).

(** [clearInterval(handle)]; [clearInterval(null)] does nothing. *)
Definition clearInterval (handle : option nat) (w : world) : world :=
  match handle with
  | None => w
  | Some h =>
      {| elevenLabsAudioBuffer := elevenLabsAudioBuffer w;
         audioPlaybackTimer := audioPlaybackTimer w;
         elevenLabsAudioCount := elevenLabsAudioCount w;
         intervals := delete h (intervals w);
         next_handle := next_handle w;
         session_audioSource := session_audioSource w;
         onData_calls := onData_calls w |}
  end.

(** The state the module is loaded with. *)
Definition init (src : option sink) : world :=
  {| elevenLabsAudioBuffer := [];
     audioPlaybackTimer := None;
     elevenLabsAudioCount := 0;
     intervals := ∅;
     next_handle := 0;
     session_audioSource := src;
     onData_calls := [] |}.

Section WithConfig.
Variable cfg : config.

(** The arrow function given to [setInterval], one run of it. *)
Definition interval_callback (audioSource : option sink) (w : world) : world :=
  match audioSource with
  | None => w
  | Some src =>
      if bool_decide (FRAME_SIZE cfg <= length (elevenLabsAudioBuffer w)) then
        let frame := take (FRAME_SIZE cfg) (elevenLabsAudioBuffer w) in
        let w := set_buffer (drop (FRAME_SIZE cfg) (elevenLabsAudioBuffer w)) w in
        onData src {| samples := frame;
                      sampleRate := WHATSAPP_SAMPLE_RATE cfg;
                      bitsPerSample := 16;
                      channelCount := 1;
                      numberOfFrames := FRAME_SIZE cfg |} w
      else if bool_decide (length (elevenLabsAudioBuffer w) = 0) then
        set_timer None (clearInterval (audioPlaybackTimer w) w)
      else w
  end.

(** The host fires interval [h]: its callback runs if the interval is
    still in the table. *)
Definition tick (h : nat) (w : world) : world :=
  match intervals w !! h with
  | Some captured => interval_callback captured w
  | None => w
  end.

Definition startAudioPlayback (w : world) : world :=
  match audioPlaybackTimer w with
  | Some _ => w
  | None =>
      let audioSource := session_audioSource w in
      let '(h, w) := setInterval audioSource w in
      set_timer (Some h) w
  end.

Definition addToPlaybackBuffer (new_samples : list Z) (w : world) : world :=
  set_buffer (elevenLabsAudioBuffer w ++ new_samples) w.

Definition resetPlayback (w : world) : world :=
  let w :=
    match audioPlaybackTimer w with
    | Some h => set_timer None (clearInterval (Some h) w)
    | None => w
    end in
  set_count 0 (set_buffer [] w).

Definition incrementElevenLabsAudioCount (w : world) : world :=
  set_count (S (elevenLabsAudioCount w)) w.

(** What can happen to the module, in the order it happens. *)
Inductive op :=
| AddToPlaybackBuffer (new_samples : list Z)
| StartAudioPlayback
| Tick (h : nat)
| SetAudioSource (s : option sink)
| IncrementElevenLabsAudioCount
| ResetPlayback.

Definition step (w : world) (o : op) : world :=
  match o with
  | AddToPlaybackBuffer s => addToPlaybackBuffer s w
  | StartAudioPlayback => startAudioPlayback w
  | Tick h => tick h w
  | SetAudioSource s => setAudioSource s w
  | IncrementElevenLabsAudioCount => incrementElevenLabsAudioCount w
  | ResetPlayback => resetPlayback w
  end.

Definition run (ops : list op) (w : world) : world := foldl step w ops.

(** All samples the trace appends, in order. *)
Definition appended (ops : list op) : list Z :=
  ops ≫= (λ o, match o with AddToPlaybackBuffer s => s | _ => [] end).

Definition is_reset (o : op) : bool :=
  match o with ResetPlayback => true | _ => false end.

Definition reset_free (ops : list op) : bool := forallb (λ o, negb (is_reset o)) ops.

(** The samples handed to the sink, in emission order. *)
Definition emitted (w : world) : list (list Z) :=
  (λ c, samples c.2) <$> onData_calls w.

End WithConfig.

(** The host's table holds at most one interval, the one
    [audioPlaybackTimer] names. *)
Definition single_timer (w : world) : Prop :=
  match audioPlaybackTimer w with
  | None => intervals w = ∅
  | Some h => ∃ captured, intervals w = {[h := captured]}
  end.

End Playback.
Import Playback.

(* ===================================================================== *)
(** ** handlers/elevenlabs.handler.js and handlers/call.handler.js *)
(* ===================================================================== *)

Module Handler.

Section WithConfig.
Variable cfg : config.

(** [handleElevenLabsAudio(audioData)] for a Buffer [audioData] (the
    binary frame, or the base64 field already decoded by the caller). *)
Definition handleElevenLabsAudio (audioData : list Z) (w : world) : world :=
  match session_audioSource w with
  | None => w
  | Some _ =>
      let w := incrementElevenLabsAudioCount w in
      let pcmData := audioData in
      let pcmData :=
        if bool_decide (length pcmData mod 2 ≠ 0)
        then take (length pcmData - 1) pcmData
        else pcmData in
      if bool_decide (length pcmData < 2) then w
      else
        let samples48k := samples_of_bytes pcmData in
        let w := addToPlaybackBuffer samples48k w in
        startAudioPlayback w
  end.

(** The playback part of [cleanupConnections]. *)
Definition cleanupConnections (w : world) : world :=
  resetPlayback (setAudioSource None w).

End WithConfig.

End Handler.

(* ===================================================================== *)
(** ** audio/bridge.js *)
(* ===================================================================== *)

Module Bridge.

Inductive ready_state := CONNECTING | OPEN | CLOSING | CLOSED.

Definition ready_state_eqb (a b : ready_state) : bool :=
  match a, b with
  | CONNECTING, CONNECTING | OPEN, OPEN | CLOSING, CLOSING | CLOSED, CLOSED => true
  | _, _ => false
  end.

(** The ElevenLabs socket: its state and the chunks given to [send], oldest
    first. The message on the wire is the JSON object
    [{user_audio_chunk: base64(chunk)}]; the chunk stands for it. *)
Record websocket := {
  readyState : ready_state;
  sent : list (list Z)
}.

(** The session variables the bridge reads and writes. *)
Record session := {
  whatsappStream : option (list nat);   (* the stream's audio tracks *)
  elevenLabsWs : option websocket;
  audioSink : option nat;               (* the track the sink listens to *)
  audioSendCount : nat
}.

(** The variables [setupAudioBridge] declares for the [ondata] closure. *)
Record capture := {
  sampleCount : nat;
  audioBuffer : list Z
}.

(** [!elevenLabsWs || elevenLabsWs.readyState !== WebSocket.OPEN], negated. *)
Definition is_open (ws : option websocket) : bool :=
  match ws with
  | Some s => ready_state_eqb (readyState s) OPEN
  | None => false
  end.

Definition sendAudioToElevenLabs (audioData : list Z) (s : session) : session :=
  match elevenLabsWs s with
  | Some ws =>
      if ready_state_eqb (readyState ws) OPEN then
        {| whatsappStream := whatsappStream s;
           elevenLabsWs := Some {| readyState := readyState ws;
                                   sent := sent ws ++ [audioData] |};
           audioSink := audioSink s;
           audioSendCount := S (audioSendCount s) |}
      else s
  | None => s
  end.

(** [let sampleCount = 0; let audioBuffer = Buffer.alloc(0);] *)
Definition fresh_capture : capture := {| sampleCount := 0; audioBuffer := [] |}.

Inductive setup_outcome :=
| Listening (c : capture)      (* the sink is created, [ondata] installed *)
| NoAudioTracks                (* the warning branch *)
| SetupError.                  (* the outer [catch]: no stream to read *)

Definition setupAudioBridge (s : session) : session * setup_outcome :=
  match whatsappStream s with
  | None => (s, SetupError)
  | Some [] => (s, NoAudioTracks)
  | Some (audioTrack :: _) =>
      ({| whatsappStream := whatsappStream s;
          elevenLabsWs := elevenLabsWs s;
          audioSink := Some audioTrack;
          audioSendCount := audioSendCount s |},
       Listening fresh_capture)
  end.

Section WithConfig.
Variable cfg : config.

(** The decimation loop: [newLength] outputs, output [i] read at
    [Math.floor(i * ratio) * channels]. *)
Definition decimate (ratio channels : nat) (samples : list Z) : list Z :=
  let newLength := length samples / ratio / channels in
  (λ i, let srcIndex := i * ratio * channels in read samples srcIndex)
    <$> seq 0 newLength.

(** [resampledSamples] as [ondata] computes it. In the branch taken
    [sampleRate / ELEVENLABS_INPUT_SAMPLE_RATE] is 48000 / 16000. *)
Definition resample (data : audio_data) : list Z :=
  let samples := samples data in
  let sampleRate := if bool_decide (sampleRate data = 0%Z) then 48000%Z else sampleRate data in
  let channels := if bool_decide (channelCount data = 0) then 1 else channelCount data in
  if bool_decide (sampleRate = 48000%Z) && bool_decide (ELEVENLABS_INPUT_SAMPLE_RATE cfg = 16000%Z)
  then
    let ratio := Z.to_nat (sampleRate / ELEVENLABS_INPUT_SAMPLE_RATE cfg) in
    decimate ratio channels samples
  else samples.

(** [audioSink.ondata = (data) => ...], on the closure variables and the
    session. *)
Definition ondata (data : audio_data) (st : capture * session) : capture * session :=
  let '(c, s) := st in
  if negb (is_open (elevenLabsWs s)) then st
  else
    let sampleCount := S (sampleCount c) in
    let resampledSamples := resample data in
    let buffer := bytes_of_samples resampledSamples in
    let audioBuffer := audioBuffer c ++ buffer in
    if bool_decide (CHUNK_SIZE cfg <= length audioBuffer) then
      ({| sampleCount := sampleCount; audioBuffer := [] |},
       sendAudioToElevenLabs audioBuffer s)
    else
      ({| sampleCount := sampleCount; audioBuffer := audioBuffer |}, s).

(** The chunks one invocation hands to the socket. *)
Definition sent_chunks (s : session) : list (list Z) :=
  match elevenLabsWs s with
  | Some ws => sent ws
  | None => []
  end.

(** The socket changes state, or is replaced, between invocations. *)
Definition setElevenLabsWs (ws : option websocket) (s : session) : session :=
  {| whatsappStream := whatsappStream s;
     elevenLabsWs := ws;
     audioSink := audioSink s;
     audioSendCount := audioSendCount s |}.

Inductive op :=
| OnData (data : audio_data)
| SetElevenLabsWs (ws : option websocket).

Definition step (st : capture * session) (o : op) : capture * session :=
  match o with
  | OnData data => ondata data st
  | SetElevenLabsWs ws => (st.1, setElevenLabsWs ws st.2)
  end.

Definition run (ops : list op) (st : capture * session) : capture * session :=
  foldl step st ops.

End WithConfig.

(** Two inputs used in examples: a 48 kHz mono frame of three samples
    (one sample, two bytes, once decimated), and a session whose socket is
    open and has sent nothing. *)
Definition frame48k (a b c : Z) : audio_data :=
  {| samples := [a; b; c]; sampleRate := 48000; bitsPerSample := 16;
     channelCount := 1; numberOfFrames := 3 |}.

Definition open_session : session :=
  {| whatsappStream := Some [0];
     elevenLabsWs := Some {| readyState := OPEN; sent := [] |};
     audioSink := Some 0;
     audioSendCount := 0 |}.

End Bridge.

(* ===================================================================== *)
(** ** server-elevenlabs.js: the upsampling handler *)
(* ===================================================================== *)

Module Legacy.

Definition ELEVENLABS_SAMPLE_RATE : Z := 16000.
Definition WHATSAPP_SAMPLE_RATE : Z := 48000.

(** [Math.round]: the nearest integer, a tie going up. The doubles of the
    source are taken as exact rationals; for the ratio the file computes,
    3, the interpolated value is a multiple of 1/3, never closer than 1/6
    to a tie, so the double and the rational round alike. *)
Definition Math_round (x : Q) : Z := Qfloor (x + (1 # 2)).

(** [Math.round(sample1 * (1 - t) + sample2 * t)] with [t = j / ratio]. *)
Definition interpolate (ratio : nat) (sample1 sample2 : Z) (j : nat) : Z :=
  let t := (Z.of_nat j # Pos.of_nat ratio)%Q in
  Math_round (inject_Z sample1 * (1 - t) + inject_Z sample2 * t)%Q.

(** The value the loops store for input index [i] and step [j], and one
    round of the outer loop; [upsample] below unfolds to them. *)
Definition stored (ratio : nat) (samples16k : list Z) (i j : nat) : Z :=
  to_int16 (interpolate ratio (read samples16k i) (read samples16k (i + 1)) j).

Definition loop_body (ratio : nat) (samples16k samples48k : list Z) (i : nat) : list Z :=
  foldl (λ samples48k j, <[i * ratio + j := stored ratio samples16k i j]> samples48k)
        samples48k (seq 0 ratio).

(** The two loops, writing into the zero-filled [samples48k]. *)
Definition upsample (ratio : nat) (samples16k : list Z) : list Z :=
  let samples48k := replicate (length samples16k * ratio) 0%Z in
  foldl (λ samples48k i,
           let idx := i * ratio in
           let sample1 := read samples16k i in
           let sample2 := read samples16k (i + 1) in
           foldl (λ samples48k j,
                    <[idx + j := to_int16 (interpolate ratio sample1 sample2 j)]> samples48k)
                 samples48k (seq 0 ratio))
        samples48k (seq 0 (length samples16k - 1)).

(** [handleElevenLabsAudio(audioData)] of the single-file server: the frame
    given to [audioSource.onData], if any. [audioData] is a Buffer, a view
    of [byteOffset] bytes into its ArrayBuffer, and
    [new Int16Array(pcmData.buffer, pcmData.byteOffset, pcmData.length / 2)]
    throws a RangeError when that offset is odd; the handler's [catch] logs
    it and nothing reaches the sink. *)
Definition handleElevenLabsAudio (audioSource : option sink)
    (byteOffset : nat) (audioData : list Z)
  : option (sink * audio_data) :=
  match audioSource with
  | None => None
  | Some src =>
      let pcmData := audioData in
      if bool_decide (byteOffset mod 2 ≠ 0) then None
      else
        let samples16k := samples_of_bytes pcmData in
        let ratio := Z.to_nat (WHATSAPP_SAMPLE_RATE / ELEVENLABS_SAMPLE_RATE) in
        let samples48k := upsample ratio samples16k in
        Some (src, {| samples := samples48k;
                      sampleRate := WHATSAPP_SAMPLE_RATE;
                      bitsPerSample := 16;
                      channelCount := 1;
                      numberOfFrames := length samples48k |})
  end.

End Legacy.

(* ===================================================================== *)
(** ** server-elevenlabs.js: the mu-law table *)
(* ===================================================================== *)

Module Mulaw.

(** One round of [initMulawTable]: the entry stored at index [i]. The
    bitwise operators act on 32-bit integers; for [i] in [0, 256) no
    intermediate value leaves that range, so they are the operations on
    [Z]. *)
Definition table_entry (i : Z) : Z :=
  let mulaw := Z.lnot i in
  let sign := if bool_decide (Z.land mulaw 0x80 = 0)%Z then 1%Z else (-1)%Z in
  let exponent := Z.land (Z.shiftr mulaw 4) 0x07 in
  let mantissa := Z.land mulaw 0x0F in
  let sample := Z.shiftl (Z.shiftl mantissa 3 + 0x84) exponent in
  let sample := ((sample - 0x84) * sign)%Z in
  to_int16 sample.

Definition MULAW_DECODE_TABLE : list Z :=
  (λ i, table_entry (Z.of_nat i)) <$> seq 0 256.

(** [decodeMulaw(mulawData)] for a Buffer of bytes. *)
Definition decodeMulaw (mulawData : list Z) : list Z :=
  (λ b, read MULAW_DECODE_TABLE (Z.to_nat b)) <$> mulawData.

Definition is_byte (b : Z) : Prop := (0 ≤ b < 256)%Z.

End Mulaw.

(* ===================================================================== *)
(** ** server-elevenlabs.js: playback and cleanup of the single-file server *)
(* ===================================================================== *)

Module Monolith.

Section WithConfig.
Variable cfg : config.

(** The interval callback of the single-file server reads the global
    [audioSource] each time it runs. *)
Definition interval_callback (w : world) : world :=
  match session_audioSource w with
  | None => w
  | Some src =>
      if bool_decide (FRAME_SIZE cfg <= length (elevenLabsAudioBuffer w)) then
        let frame := take (FRAME_SIZE cfg) (elevenLabsAudioBuffer w) in
        let w := set_buffer (drop (FRAME_SIZE cfg) (elevenLabsAudioBuffer w)) w in
        onData src {| samples := frame;
                      sampleRate := Legacy.WHATSAPP_SAMPLE_RATE;
                      bitsPerSample := 16;
                      channelCount := 1;
                      numberOfFrames := FRAME_SIZE cfg |} w
      else if bool_decide (length (elevenLabsAudioBuffer w) = 0) then
        set_timer None (clearInterval (audioPlaybackTimer w) w)
      else w
  end.

Definition tick (h : nat) (w : world) : world :=
  match intervals w !! h with
  | Some _ => interval_callback w
  | None => w
  end.

(** [cleanupConnections]: of the playback state it only forgets the audio
    source; the buffer and the timer are not touched. *)
Definition cleanupConnections (w : world) : world := setAudioSource None w.

End WithConfig.

End Monolith.

(* ===================================================================== *)
(** ** The ingest path driven by its callers *)
(* ===================================================================== *)

Module Ingest.

Section WithConfig.
Variable cfg : config.

(** What reaches the playback state during a call: a payload from the
    socket, a firing of an interval, the WebRTC setup installing an audio
    source, the end of the call. *)
Inductive event :=
| Deliver (audioData : list Z)
| Fire (h : nat)
| SourceChanged (s : option sink)
| Cleanup.

Definition step (w : world) (e : event) : world :=
  match e with
  | Deliver audioData => Handler.handleElevenLabsAudio audioData w
  | Fire h => Playback.tick cfg h w
  | SourceChanged s => setAudioSource s w
  | Cleanup => Handler.cleanupConnections w
  end.

Definition run (events : list event) (w : world) : world := foldl step w events.

(** The samples of all payloads of a trace, in order. *)
Definition delivered (events : list event) : list Z :=
  events ≫= (λ e, match e with Deliver audioData => samples_of_bytes audioData | _ => [] end).

Definition is_data (e : event) : bool :=
  match e with Deliver _ | Fire _ => true | _ => false end.

End WithConfig.

(** The running timer, if any, is the only interval and its callback holds
    an audio source. *)
Definition timer_has_sink (w : world) : Prop :=
  match audioPlaybackTimer w with
  | None => intervals w = ∅
  | Some h => ∃ src : sink, intervals w = {[h := Some src]}
  end.

End Ingest.

(* ===================================================================== *)
(** ** handlers/elevenlabs.handler.js and services/elevenlabs.service.js:
       messages from the socket *)
(* ===================================================================== *)

Module Messages.

(** The fields of a parsed message the handler looks at; [None] is a
    missing field. *)
Record message := {
  type : string;
  audio : option string;
  audio_event_audio_base_64 : option string;
  ping_event_id : option Z;
  metadata_event_conversation_id : option string;
  conversation_id : option string
}.

(** What the handler sends back. *)
Inductive outgoing :=
| Pong (event_id : option Z).

Record socket := {
  readyState : Bridge.ready_state;
  outbox : list outgoing            (* oldest first *)
}.

Record link := {
  playback : world;
  elevenLabsWs : option socket;
  conversationId : option string
}.

(** A string in a condition: missing and empty are both false. *)
Definition truthy (field : option string) : bool :=
  match field with
  | Some s => negb (String.eqb s "")
  | None => false
  end.

Definition set_playback (w : world) (l : link) : link :=
  {| playback := w; elevenLabsWs := elevenLabsWs l; conversationId := conversationId l |}.

Section WithHost.
(** [Buffer.from(text, 'base64')] and [JSON.parse(buffer.toString())],
    functions of the host. *)
Variable base64_decode : string → list Z.
Variable JSON_parse : list Z → option message.

Definition handleElevenLabsMessage (m : message) (l : link) : link :=
  if String.eqb (type m) "conversation_initiation_metadata" then
    let convId :=
      if truthy (metadata_event_conversation_id m)
      then metadata_event_conversation_id m else conversation_id m in
    {| playback := playback l; elevenLabsWs := elevenLabsWs l; conversationId := convId |}
  else if String.eqb (type m) "audio" then
    if truthy (audio m) then
      let audioData := base64_decode (default "" (audio m)) in
      set_playback (Handler.handleElevenLabsAudio audioData (playback l)) l
    else if truthy (audio_event_audio_base_64 m) then
      let audioData := base64_decode (default "" (audio_event_audio_base_64 m)) in
      set_playback (Handler.handleElevenLabsAudio audioData (playback l)) l
    else l
  else if String.eqb (type m) "ping" then
    match elevenLabsWs l with
    | Some ws =>
        if Bridge.ready_state_eqb (readyState ws) Bridge.OPEN then
          let pongMessage := Pong (ping_event_id m) in
          {| playback := playback l;
             elevenLabsWs := Some {| readyState := readyState ws;
                                     outbox := outbox ws ++ [pongMessage] |};
             conversationId := conversationId l |}
        else l
    | None => l
    end
  else l.

(** The socket's ["message"] listener: a first byte ['{'] means JSON, which
    is parsed and handled (a message that does not parse is only logged);
    anything else is audio. *)
Definition on_message (messageData : list Z) (l : link) : link :=
  let firstByte := messageData !! 0 in
  let isJson := bool_decide (firstByte = Some 0x7b%Z) in
  if isJson then
    match JSON_parse messageData with
    | Some m => handleElevenLabsMessage m l
    | None => l
    end
  else set_playback (Handler.handleElevenLabsAudio messageData (playback l)) l.

End WithHost.

End Messages.

(* ===================================================================== *)
(** ** The capture path over the life of one socket *)
(* ===================================================================== *)

Module Capture.

Import Bridge.

(** The socket object stays the same; only its [readyState] moves. *)
Definition setReadyState (r : ready_state) (s : session) : session :=
  match elevenLabsWs s with
  | Some ws => setElevenLabsWs (Some {| readyState := r; sent := sent ws |}) s
  | None => s
  end.

Inductive event :=
| Frame (data : audio_data)        (* the sink calls [ondata] *)
| StateChange (r : ready_state).

Section WithConfig.
Variable cfg : config.

Definition step (st : capture * session) (e : event) : capture * session :=
  match e with
  | Frame data => ondata cfg data st
  | StateChange r => (st.1, setReadyState r st.2)
  end.

Definition run (events : list event) (st : capture * session) : capture * session :=
  foldl step st events.

(** The bytes of the frames that arrive while the socket is open, in
    order; [open] is whether it is open before the first event. *)
Fixpoint accepted (events : list event) (open : bool) : list Z :=
  match events with
  | [] => []
  | Frame data :: rest =>
      (if open then bytes_of_samples (resample cfg data) else []) ++ accepted rest open
  | StateChange r :: rest => accepted rest (ready_state_eqb r OPEN)
  end.

End WithConfig.

(** A stereo frame's samples: left and right interleaved. *)
Definition interleave (frames : list (Z * Z)) : list Z :=
  frames ≫= (λ lr, [lr.1; lr.2]).

(** The 10 ms frame the sink delivers: 480 mono samples at 48 kHz. *)
Definition standard_frame (data : audio_data) : Prop :=
  sampleRate data = 48000%Z ∧ channelCount data = 1 ∧ length (samples data) = 480.

End Capture.

(* ===================================================================== *)
(** ** Properties of the playback path *)
(* ===================================================================== *)

Section PlaybackFacts.
Variable cfg : config.

Lemma emitted_onData s frame w :
  emitted (onData s frame w) = emitted w ++ [samples frame].
Proof. unfold emitted, onData; simpl. by rewrite fmap_app. Qed.

(** What one run of the interval callback does, by cases. *)
Lemma interval_callback_cases captured w :
  let w' := interval_callback cfg captured w in
  (∃ src, captured = Some src
          ∧ FRAME_SIZE cfg ≤ length (elevenLabsAudioBuffer w)
          ∧ w' = onData src {| samples := take (FRAME_SIZE cfg) (elevenLabsAudioBuffer w);
                               sampleRate := WHATSAPP_SAMPLE_RATE cfg;
                               bitsPerSample := 16;
                               channelCount := 1;
                               numberOfFrames := FRAME_SIZE cfg |}
                    (set_buffer (drop (FRAME_SIZE cfg) (elevenLabsAudioBuffer w)) w))
  ∨ (is_Some captured
     ∧ length (elevenLabsAudioBuffer w) < FRAME_SIZE cfg
     ∧ elevenLabsAudioBuffer w = []
     ∧ w' = set_timer None (clearInterval (audioPlaybackTimer w) w))
  ∨ ((captured = None
      ∨ (0 < length (elevenLabsAudioBuffer w) < FRAME_SIZE cfg))
     ∧ w' = w).
Proof.
  unfold interval_callback. destruct captured as [src|]; simpl.
  - case_bool_decide as Hfull.
    + left. eauto.
    + case_bool_decide as Hempty.
      * right; left. split_and!; [eauto | lia | by apply nil_length_inv | done].
      * right; right. split; [right; lia | done].
  - right; right. eauto.
Qed.

(** A tick moves samples from the head of the buffer to the sink and
    nothing else: what was emitted followed by what is buffered does not
    change. *)
Lemma tick_stream h w :
  concat (emitted (tick cfg h w)) ++ elevenLabsAudioBuffer (tick cfg h w)
  = concat (emitted w) ++ elevenLabsAudioBuffer w.
Proof.
  unfold tick. destruct (intervals w !! h) as [captured|]; [|done].
  destruct (interval_callback_cases captured w) as [(src & _ & _ & ->)|[(_ & _ & _ & ->)|[_ ->]]];
    [|by destruct (audioPlaybackTimer w)|done].
  rewrite emitted_onData, concat_app. simpl.
  rewrite app_nil_r, <- app_assoc. f_equal. apply take_drop.
Qed.

Lemma tick_frames h w :
  Forall (λ f, length f = FRAME_SIZE cfg) (emitted w) →
  Forall (λ f, length f = FRAME_SIZE cfg) (emitted (tick cfg h w)).
Proof.
  intros Hw. unfold tick. destruct (intervals w !! h) as [captured|]; [|done].
  destruct (interval_callback_cases captured w) as [(src & _ & Hlen & ->)|[(_ & _ & _ & ->)|[_ ->]]];
    [|by destruct (audioPlaybackTimer w)|done].
  rewrite emitted_onData. apply Forall_app. split; [done|].
  constructor; [|done]. simpl. by rewrite length_take_le.
Qed.

Lemma step_stream w o :
  is_reset o = false →
  concat (emitted (step cfg w o)) ++ elevenLabsAudioBuffer (step cfg w o)
  = (concat (emitted w) ++ elevenLabsAudioBuffer w) ++ appended [o].
Proof.
  destruct o as [s| |h|s| |]; simpl; intros Hr; try discriminate.
  - by rewrite app_nil_r, app_assoc.
  - rewrite app_nil_r. unfold startAudioPlayback.
    by destruct (audioPlaybackTimer w).
  - rewrite app_nil_r. apply tick_stream.
  - by rewrite app_nil_r.
  - by rewrite app_nil_r.
Qed.

Lemma step_frames w o :
  is_reset o = false →
  Forall (λ f, length f = FRAME_SIZE cfg) (emitted w) →
  Forall (λ f, length f = FRAME_SIZE cfg) (emitted (step cfg w o)).
Proof.
  destruct o as [s| |h|s| |]; simpl; intros Hr Hw; try discriminate; try done.
  - unfold startAudioPlayback. by destruct (audioPlaybackTimer w).
  - by apply tick_frames.
Qed.

Lemma run_snoc ops o w : run cfg (ops ++ [o]) w = step cfg (run cfg ops w) o.
Proof. unfold run. by rewrite foldl_app. Qed.

Lemma appended_snoc ops o : appended (ops ++ [o]) = appended ops ++ appended [o].
Proof. unfold appended. by rewrite bind_app. Qed.

(** Over a whole trace without a reset. *)
Lemma run_stream ops w :
  reset_free ops = true →
  Forall (λ f, length f = FRAME_SIZE cfg) (emitted w) →
  concat (emitted (run cfg ops w)) ++ elevenLabsAudioBuffer (run cfg ops w)
  = (concat (emitted w) ++ elevenLabsAudioBuffer w) ++ appended ops
  ∧ Forall (λ f, length f = FRAME_SIZE cfg) (emitted (run cfg ops w)).
Proof.
  intros Hfree Hw. induction ops as [|o ops IH] using rev_ind.
  - simpl. by rewrite app_nil_r.
  - unfold reset_free in Hfree. rewrite forallb_app in Hfree.
    apply andb_true_iff in Hfree as [Hops Ho]. simpl in Ho.
    rewrite andb_true_r in Ho. apply negb_true_iff in Ho.
    destruct (IH Hops) as [IHs IHf].
    rewrite run_snoc, appended_snoc. split.
    + rewrite step_stream by done. rewrite IHs. by rewrite <- !app_assoc.
    + by apply step_frames.
Qed.

(** Frames of one size, concatenated: the first [k] of them are the
    first [k * size] samples. *)
Lemma concat_take_frames (n k : nat) (frames : list (list Z)) :
  Forall (λ f, length f = n) frames →
  k ≤ length frames →
  concat (take k frames) = take (k * n) (concat frames).
Proof.
  intros Hall. revert k. induction Hall as [|f frames Hf _ IH]; intros k Hk.
  - simpl in Hk. by replace k with 0 by lia.
  - destruct k as [|k]; [done|]. simpl in *.
    rewrite take_app_add' by done. f_equal. apply IH. lia.
Qed.

Lemma length_concat_frames (n : nat) (frames : list (list Z)) :
  Forall (λ f, length f = n) frames →
  length (concat frames) = length frames * n.
Proof.
  induction 1 as [|f frames Hf _ IH]; [done|].
  simpl. rewrite length_app. lia.
Qed.

(** While the interval is live with a sink and the buffer holds [k] frames,
    [k] ticks emit them, one per tick, from the head. *)
Lemma ticks_drain (h : nat) (s : sink) (k : nat) :
  ∀ w,
    intervals w !! h = Some (Some s) →
    k * FRAME_SIZE cfg ≤ length (elevenLabsAudioBuffer w) →
    concat (emitted (run cfg (replicate k (Tick h)) w))
    = concat (emitted w) ++ take (k * FRAME_SIZE cfg) (elevenLabsAudioBuffer w)
    ∧ length (emitted (run cfg (replicate k (Tick h)) w)) = length (emitted w) + k
    ∧ elevenLabsAudioBuffer (run cfg (replicate k (Tick h)) w)
      = drop (k * FRAME_SIZE cfg) (elevenLabsAudioBuffer w).
Proof.
  induction k as [|k IH]; intros w Hlive Hlen.
  - simpl. rewrite app_nil_r. split_and!; [done|lia|done].
  - change (run cfg (replicate (S k) (Tick h)) w)
      with (run cfg (replicate k (Tick h)) (tick cfg h w)).
    rewrite Nat.mul_succ_l, (Nat.add_comm (k * _)) in *.
    assert (Htick : tick cfg h w
      = onData s {| samples := take (FRAME_SIZE cfg) (elevenLabsAudioBuffer w);
                    sampleRate := WHATSAPP_SAMPLE_RATE cfg;
                    bitsPerSample := 16;
                    channelCount := 1;
                    numberOfFrames := FRAME_SIZE cfg |}
          (set_buffer (drop (FRAME_SIZE cfg) (elevenLabsAudioBuffer w)) w)).
    { unfold tick. rewrite Hlive. unfold interval_callback.
      rewrite bool_decide_eq_true_2; [done|]. clear -Hlen. nia. }
    destruct (IH (tick cfg h w)) as (IHc & IHl & IHb).
    + by rewrite Htick.
    + rewrite Htick. simpl. rewrite length_drop. clear -Hlen. nia.
    + rewrite IHc, IHl, IHb, Htick, emitted_onData, concat_app, length_app. simpl.
      rewrite app_nil_r, drop_drop, <- app_assoc.
      rewrite take_take_drop.
      change (emitted (set_buffer (drop (FRAME_SIZE cfg) (elevenLabsAudioBuffer w)) w))
        with (emitted w).
      split_and!; [done|lia|done].
Qed.

End PlaybackFacts.

(** Every state reached from the initial one has a single timer. *)
Lemma step_single_timer cfg w o : single_timer w → single_timer (step cfg w o).
Proof.
  unfold single_timer. destruct o as [s| |h|s| |]; simpl; try done.
  - unfold startAudioPlayback.
    destruct (audioPlaybackTimer w) eqn:Ht; simpl; [by rewrite Ht|].
    intros ->. by eexists.
  - intros Hw. unfold tick. destruct (intervals w !! h) as [captured|] eqn:Hh; [|done].
    destruct (interval_callback_cases cfg captured w)
      as [(src & _ & _ & ->)|[(_ & _ & _ & ->)|[_ ->]]]; simpl; try done.
    destruct (audioPlaybackTimer w) as [t|]; simpl; [|done].
    destruct Hw as [c ->]. apply delete_singleton_eq.
  - unfold resetPlayback. destruct (audioPlaybackTimer w) as [t|] eqn:Ht; simpl.
    + intros [c ->]. apply delete_singleton_eq.
    + by rewrite Ht.
Qed.

Lemma run_single_timer cfg ops w : single_timer w → single_timer (run cfg ops w).
Proof.
  revert w. induction ops as [|o ops IH]; intros w Hw; [done|].
  simpl. apply IH. by apply step_single_timer.
Qed.

(** C1. Strict FIFO order of the playback path. Over any trace of appends,
    starts, timer ticks and changes of the audio source (no reset) from the
    freshly loaded module, the first [k] frames handed to the sink are
    exactly the first [k * 480] samples appended, in the order they were
    appended, for every [k] up to the number of frames emitted; and the
    appended stream is the emitted frames followed by what is still
    buffered, so no sample is emitted early, twice, or lost. *)
Theorem playback_fifo (src : option sink) (ops : list Playback.op) (k : nat) :
  reset_free ops = true →
  k ≤ length (emitted (run audio_config ops (init src))) →
  concat (take k (emitted (run audio_config ops (init src))))
  = take (k * 480) (appended ops)
  ∧ concat (emitted (run audio_config ops (init src)))
    ++ elevenLabsAudioBuffer (run audio_config ops (init src))
    = appended ops
  ∧ Forall (λ frame, length frame = 480) (emitted (run audio_config ops (init src))).
Proof.
  intros Hfree Hk.
  destruct (run_stream audio_config ops (init src) Hfree) as [Hs Hf]; [constructor|].
  simpl in Hs. split_and!; [|done|done].
  rewrite <- Hs.
  rewrite take_app_le.
  - by apply (concat_take_frames 480).
  - rewrite (length_concat_frames 480) by done. simpl in Hk. nia.
Qed.

Lemma playback_fifo_witness :
  concat (take 1 (emitted (run audio_config
            [AddToPlaybackBuffer (replicate 300 1%Z); StartAudioPlayback; Tick 0;
             AddToPlaybackBuffer (replicate 300 2%Z); Tick 0; Tick 0]
            (init (Some 7)))))
  = replicate 300 1%Z ++ replicate 180 2%Z.
Proof.
  refine (eq_trans (proj1 (playback_fifo (Some 7)
            [AddToPlaybackBuffer (replicate 300 1%Z); StartAudioPlayback; Tick 0;
             AddToPlaybackBuffer (replicate 300 2%Z); Tick 0; Tick 0] 1 _ _)) _).
  - reflexivity.
  - vm_compute. lia.
  - vm_compute. reflexivity.
Defined.

(** C2, as stated, fails: with one sample buffered the tick emits nothing
    but the engine does not go idle. *)
Lemma tick_short_buffer_stays_running :
  let w := run audio_config [AddToPlaybackBuffer [7%Z]; StartAudioPlayback] (init (Some 1)) in
  length (elevenLabsAudioBuffer w) < 480
  ∧ onData_calls (tick audio_config 0 w) = onData_calls w
  ∧ audioPlaybackTimer (tick audio_config 0 w) = Some 0
  ∧ intervals (tick audio_config 0 w) !! 0 = Some (Some 1).
Proof. vm_compute. split_and!; [lia|done..]. Qed.

(** C2, amended. A tick hands the sink either exactly one frame or nothing.
    The frame is the first 480 samples of the buffer, which are removed from
    it: never shorter, never padded, never a sample emitted before. When
    the interval is live with a sink and fewer than 480 samples are
    buffered, nothing is emitted; the engine goes idle if the buffer is
    empty, and otherwise stays as it is. *)
Theorem tick_full_frame_or_nothing (h : nat) (w : world) :
  ((∃ s frame,
       onData_calls (tick audio_config h w) = onData_calls w ++ [(s, frame)]
       ∧ samples frame = take 480 (elevenLabsAudioBuffer w)
       ∧ length (samples frame) = 480
       ∧ numberOfFrames frame = 480
       ∧ elevenLabsAudioBuffer (tick audio_config h w) = drop 480 (elevenLabsAudioBuffer w)
       ∧ 480 ≤ length (elevenLabsAudioBuffer w))
   ∨ (onData_calls (tick audio_config h w) = onData_calls w
      ∧ elevenLabsAudioBuffer (tick audio_config h w) = elevenLabsAudioBuffer w))
  ∧ (∀ s, intervals w !! h = Some (Some s) →
          length (elevenLabsAudioBuffer w) < 480 →
          onData_calls (tick audio_config h w) = onData_calls w
          ∧ (elevenLabsAudioBuffer w = [] →
             audioPlaybackTimer (tick audio_config h w) = None)
          ∧ (elevenLabsAudioBuffer w ≠ [] → tick audio_config h w = w)).
Proof.
  split.
  - unfold tick. destruct (intervals w !! h) as [captured|]; [|by right].
    destruct (interval_callback_cases audio_config captured w)
      as [(src & _ & Hlen & ->)|[(_ & _ & _ & ->)|[_ ->]]]; simpl in *.
    + left. eexists _, _. split_and!; try done. simpl. by rewrite length_take_le.
    + right. by destruct (audioPlaybackTimer w).
    + by right.
  - intros s Hs Hlen. unfold tick. rewrite Hs.
    destruct (interval_callback_cases audio_config (Some s) w)
      as [(src & _ & Hfull & _)|[(_ & _ & Hnil & ->)|[[?| Hres] ->]]]; simpl in *;
      try done; try lia.
    + split_and!; [by destruct (audioPlaybackTimer w)|done|by rewrite Hnil].
    + split_and!; [done| |done]. intros Hnil. rewrite Hnil in Hres. simpl in Hres. lia.
Qed.

Lemma tick_full_frame_or_nothing_witness :
  let w := run audio_config [AddToPlaybackBuffer [7%Z]; StartAudioPlayback] (init (Some 1)) in
  tick audio_config 0 w = w.
Proof.
  intros w.
  refine (proj2 (proj2 (proj2 (tick_full_frame_or_nothing 0 w) 1 _ _)) _).
  - reflexivity.
  - vm_compute. lia.
  - discriminate.
Defined.

(** C9. Starting the pacing engine is idempotent. After a start the timer
    variable is set, so a second start returns at once: the state after two
    starts is the state after one, with the same interval table (no second
    interval), and every continuation of the trace, its ticks and its
    emissions, is the same. From the freshly loaded module the table never
    holds more than one interval. *)
Theorem start_idempotent (cfg : config) (w : world) :
  is_Some (audioPlaybackTimer (startAudioPlayback w))
  ∧ startAudioPlayback (startAudioPlayback w) = startAudioPlayback w
  ∧ size (intervals (startAudioPlayback (startAudioPlayback w)))
    = size (intervals (startAudioPlayback w))
  ∧ (∀ ops, run cfg (StartAudioPlayback :: StartAudioPlayback :: ops) w
            = run cfg (StartAudioPlayback :: ops) w)
  ∧ (∀ src ops, size (intervals (run cfg ops (init src))) ≤ 1).
Proof.
  assert (Hset : is_Some (audioPlaybackTimer (startAudioPlayback w))).
  { unfold startAudioPlayback. destruct (audioPlaybackTimer w) eqn:Ht; simpl; [|by eexists].
    rewrite Ht. by eexists. }
  assert (Hid : startAudioPlayback (startAudioPlayback w) = startAudioPlayback w).
  { destruct Hset as [t Ht]. unfold startAudioPlayback at 1. by rewrite Ht. }
  split_and!; [done|done|by rewrite Hid| |].
  - intros ops. simpl. by rewrite Hid.
  - intros src ops.
    pose proof (run_single_timer cfg ops (init src)) as Hinv.
    unfold single_timer in Hinv.
    destruct (audioPlaybackTimer (run cfg ops (init src))).
    + destruct Hinv as [c ->]; [done|]. rewrite map_size_singleton. lia.
    + rewrite Hinv by done. rewrite map_size_empty. lia.
Qed.

(** C10. The timer is cancelled by a tick only when the buffer is exactly
    empty. A tick that finds the buffer non-empty leaves the timer variable
    and the interval table as they are; if it finds fewer than 480 samples
    (and at least one) it changes nothing at all: no emission, the same
    buffer, the timer still running. A reset stops the timer and empties
    the buffer whatever the residue. *)
Theorem tick_cancels_only_when_empty (h : nat) (w : world) :
  elevenLabsAudioBuffer w ≠ [] →
  audioPlaybackTimer (tick audio_config h w) = audioPlaybackTimer w
  ∧ intervals (tick audio_config h w) = intervals w
  ∧ (length (elevenLabsAudioBuffer w) < 480 → tick audio_config h w = w)
  ∧ audioPlaybackTimer (resetPlayback w) = None
  ∧ elevenLabsAudioBuffer (resetPlayback w) = [].
Proof.
  intros Hne. split_and!.
  - unfold tick. destruct (intervals w !! h) as [captured|]; [|done].
    by destruct (interval_callback_cases audio_config captured w)
      as [(src & _ & _ & ->)|[(_ & _ & ? & _)|[_ ->]]].
  - unfold tick. destruct (intervals w !! h) as [captured|]; [|done].
    by destruct (interval_callback_cases audio_config captured w)
      as [(src & _ & _ & ->)|[(_ & _ & ? & _)|[_ ->]]].
  - intros Hlen. unfold tick. destruct (intervals w !! h) as [captured|]; [|done].
    destruct (interval_callback_cases audio_config captured w)
      as [(src & _ & ? & _)|[(_ & _ & ? & _)|[_ ->]]]; simpl in *; [lia|done|done].
  - unfold resetPlayback. destruct (audioPlaybackTimer w) eqn:Ht; simpl; congruence.
  - unfold resetPlayback. destruct (audioPlaybackTimer w); reflexivity.
Qed.

Lemma tick_cancels_only_when_empty_witness :
  let w := run audio_config [AddToPlaybackBuffer [7%Z]; StartAudioPlayback] (init (Some 1)) in
  audioPlaybackTimer (tick audio_config 0 w) = Some 0.
Proof.
  intros w.
  refine (eq_trans (proj1 (tick_cancels_only_when_empty 0 w _)) _).
  - discriminate.
  - reflexivity.
Defined.

(* ===================================================================== *)
(** ** Properties of the capture path *)
(* ===================================================================== *)

Import Bridge.

Lemma length_bytes_of_samples (l : list Z) :
  length (bytes_of_samples l) = 2 * length l.
Proof.
  unfold bytes_of_samples. induction l as [|x l IH]; [done|].
  rewrite bind_cons, length_app, IH. simpl. lia.
Qed.

Lemma length_decimate ratio channels (l : list Z) :
  length (decimate ratio channels l) = length l / ratio / channels.
Proof. unfold decimate. by rewrite length_fmap, length_seq. Qed.

(** The source index of every output of the loop lies inside the input. *)
Lemma decimate_index_in_range ratio channels len i :
  0 < ratio → 0 < channels →
  i < len / ratio / channels → i * ratio * channels < len.
Proof.
  intros Hr Hc Hi.
  assert (H1 : channels * (len / ratio / channels) ≤ len / ratio)
    by (apply Nat.Div0.mul_div_le).
  assert (H2 : ratio * (len / ratio) ≤ len) by (apply Nat.Div0.mul_div_le).
  generalize dependent (len / ratio / channels). intros q2 Hi H1.
  generalize dependent (len / ratio). intros q1 H1 H2.
  assert (H3 : S i * channels ≤ q1) by nia.
  assert (H4 : S i * channels * ratio ≤ len) by nia.
  nia.
Qed.

Lemma decimate_lookup ratio channels (l : list Z) i :
  0 < ratio → 0 < channels →
  i < length l / ratio / channels →
  is_Some (l !! (i * ratio * channels))
  ∧ decimate ratio channels l !! i = l !! (i * ratio * channels).
Proof.
  intros Hr Hc Hi.
  pose proof (decimate_index_in_range ratio channels (length l) i Hr Hc Hi) as Hsrc.
  apply lookup_lt_is_Some in Hsrc as Hsome. split; [done|].
  unfold decimate. rewrite list_lookup_fmap, lookup_seq_lt by done. simpl.
  unfold read. by destruct Hsome as [x ->].
Qed.

(** The two ways through [ondata] with the socket open. *)
Lemma ondata_open cfg data c s :
  is_open (elevenLabsWs s) = true →
  ondata cfg data (c, s)
  = if bool_decide (CHUNK_SIZE cfg ≤ length (audioBuffer c ++ bytes_of_samples (resample cfg data)))
    then ({| sampleCount := S (sampleCount c); audioBuffer := [] |},
          sendAudioToElevenLabs (audioBuffer c ++ bytes_of_samples (resample cfg data)) s)
    else ({| sampleCount := S (sampleCount c);
             audioBuffer := audioBuffer c ++ bytes_of_samples (resample cfg data) |}, s).
Proof. intros Hopen. unfold ondata. by rewrite Hopen. Qed.

Lemma ondata_closed cfg data c s :
  is_open (elevenLabsWs s) = false → ondata cfg data (c, s) = (c, s).
Proof. intros Hclosed. unfold ondata. by rewrite Hclosed. Qed.

Lemma send_open chunk s :
  is_open (elevenLabsWs s) = true →
  sent_chunks (sendAudioToElevenLabs chunk s) = sent_chunks s ++ [chunk].
Proof.
  unfold is_open, sendAudioToElevenLabs, sent_chunks.
  destruct (elevenLabsWs s) as [ws|]; [|done].
  by intros ->.
Qed.

Lemma send_closed chunk s :
  is_open (elevenLabsWs s) = false → sendAudioToElevenLabs chunk s = s.
Proof.
  unfold is_open, sendAudioToElevenLabs.
  destruct (elevenLabsWs s) as [ws|]; [|done].
  by intros ->.
Qed.

Lemma ondata_accumulator_bound cfg data st :
  0 < CHUNK_SIZE cfg →
  length (audioBuffer st.1) < CHUNK_SIZE cfg →
  length (audioBuffer (ondata cfg data st).1) < CHUNK_SIZE cfg.
Proof.
  intros Hpos Hlt. destruct st as [c s].
  destruct (is_open (elevenLabsWs s)) eqn:Hopen.
  - rewrite ondata_open by done. case_bool_decide; simpl; [done|lia].
  - by rewrite ondata_closed.
Qed.

Lemma run_accumulator_bound cfg ops st :
  0 < CHUNK_SIZE cfg →
  length (audioBuffer st.1) < CHUNK_SIZE cfg →
  length (audioBuffer (Bridge.run cfg ops st).1) < CHUNK_SIZE cfg.
Proof.
  intros Hpos. revert st. induction ops as [|o ops IH]; intros st Hlt; [done|].
  simpl. apply IH. destruct o as [data|ws]; simpl; [|done].
  by apply ondata_accumulator_bound.
Qed.

(** C3. The capture accumulator. Over any trace of capture callbacks and
    socket changes from the state [setupAudioBridge] creates, the
    accumulator holds strictly fewer bytes than the chunk threshold after
    every invocation. With the socket open, an invocation whose append
    makes the accumulator reach the threshold sends the whole accumulated
    buffer, once, and leaves the accumulator empty; one that stays below
    sends nothing. With a threshold of 4 bytes and three appends of 2
    bytes, the one flush happens at the second append and the third
    sample's bytes are what the accumulator holds afterwards. *)
Theorem capture_accumulator_flush (cfg : config) (ops : list Bridge.op) (s0 : session) :
  0 < CHUNK_SIZE cfg →
  length (audioBuffer (Bridge.run cfg ops (fresh_capture, s0)).1) < CHUNK_SIZE cfg
  ∧ (∀ data c s,
       is_open (elevenLabsWs s) = true →
       let accumulated := audioBuffer c ++ bytes_of_samples (resample cfg data) in
       (CHUNK_SIZE cfg ≤ length accumulated →
        sent_chunks (ondata cfg data (c, s)).2 = sent_chunks s ++ [accumulated]
        ∧ audioBuffer (ondata cfg data (c, s)).1 = [])
       ∧ (length accumulated < CHUNK_SIZE cfg →
          (ondata cfg data (c, s)).2 = s
          ∧ audioBuffer (ondata cfg data (c, s)).1 = accumulated))
  ∧ (let cfg4 := {| ELEVENLABS_INPUT_SAMPLE_RATE := 16000; WHATSAPP_SAMPLE_RATE := 48000;
                    FRAME_SIZE := 480; CHUNK_SIZE := 4 |} in
     let after1 := ondata cfg4 (frame48k 10 11 12) (fresh_capture, open_session) in
     let after2 := ondata cfg4 (frame48k 20 21 22) after1 in
     let after3 := ondata cfg4 (frame48k 30 31 32) after2 in
     audioBuffer after1.1 = [10; 0]%Z ∧ sent_chunks after1.2 = []
     ∧ audioBuffer after2.1 = [] ∧ sent_chunks after2.2 = [[10; 0; 20; 0]%Z]
     ∧ audioBuffer after3.1 = [30; 0]%Z ∧ sent_chunks after3.2 = [[10; 0; 20; 0]%Z]).
Proof.
  intros Hpos. split_and!.
  - apply run_accumulator_bound; [done|]. simpl. lia.
  - intros data c s Hopen accumulated. rewrite ondata_open by done.
    fold accumulated. split; intros Hlen.
    + rewrite bool_decide_eq_true_2 by done. simpl. split; [|done].
      by apply send_open.
    + rewrite bool_decide_eq_false_2 by lia. done.
  - vm_compute. done.
Qed.

Lemma capture_accumulator_flush_witness :
  length (audioBuffer
    (Bridge.run audio_config
       [OnData (frame48k 1 2 3); SetElevenLabsWs None; OnData (frame48k 4 5 6)]
       (fresh_capture, open_session)).1) < 4000.
Proof.
  refine (proj1 (capture_accumulator_flush audio_config
       [OnData (frame48k 1 2 3); SetElevenLabsWs None; OnData (frame48k 4 5 6)]
       open_session _)).
  simpl. lia.
Defined.

(** The two branches of [resample]. *)
Lemma resample_48k_to_16k cfg (data : audio_data) :
  (if bool_decide (sampleRate data = 0%Z) then 48000%Z else sampleRate data) = 48000%Z →
  ELEVENLABS_INPUT_SAMPLE_RATE cfg = 16000%Z →
  resample cfg data
  = decimate 3 (if bool_decide (channelCount data = 0) then 1 else channelCount data)
             (samples data).
Proof.
  intros Hrate Htarget. unfold resample. rewrite Hrate, Htarget.
  rewrite !bool_decide_eq_true_2 by done. simpl.
  by change (Z.to_nat (48000 `div` 16000)) with 3.
Qed.

Lemma resample_other_rates cfg (data : audio_data) :
  (if bool_decide (sampleRate data = 0%Z) then 48000%Z else sampleRate data) ≠ 48000%Z
  ∨ ELEVENLABS_INPUT_SAMPLE_RATE cfg ≠ 16000%Z →
  resample cfg data = samples data.
Proof.
  intros Hother. unfold resample.
  destruct Hother as [Hrate|Htarget].
  - by rewrite (bool_decide_eq_false_2 _ Hrate).
  - rewrite (bool_decide_eq_false_2 _ Htarget). by rewrite andb_false_r.
Qed.

(** C4, as stated, fails: 32000 / 16000 = 2 is an integer ratio, yet a
    32 kHz frame is not decimated; output sample 1 is input sample 1, not
    input sample 2. The same holds for a 48 kHz frame when the target rate
    is 24000. *)
Lemma integer_ratio_two_is_not_decimated :
  let data := {| samples := [10; 20; 30; 40; 50; 60]%Z; sampleRate := 32000;
                 bitsPerSample := 16; channelCount := 1; numberOfFrames := 6 |} in
  (sampleRate data mod ELEVENLABS_INPUT_SAMPLE_RATE audio_config = 0)%Z
  ∧ (sampleRate data / ELEVENLABS_INPUT_SAMPLE_RATE audio_config = 2)%Z
  ∧ resample audio_config data = [10; 20; 30; 40; 50; 60]%Z
  ∧ resample audio_config data !! 1 ≠ samples data !! (1 * 2)
  ∧ resample {| ELEVENLABS_INPUT_SAMPLE_RATE := 24000; WHATSAPP_SAMPLE_RATE := 48000;
                FRAME_SIZE := 480; CHUNK_SIZE := 4000 |}
             {| samples := [10; 20; 30; 40; 50; 60]%Z; sampleRate := 48000;
                bitsPerSample := 16; channelCount := 1; numberOfFrames := 6 |}
    = [10; 20; 30; 40; 50; 60]%Z.
Proof. vm_compute. split_and!; done. Qed.

(** C4, amended. Downsampling is nearest-neighbour decimation, and it is
    done for one rate pairing only. When the frame's rate (48000 if it
    carries none) is 48000 and the target rate is 16000, the ratio is 3, the
    output has floor(length / 3 / channels) samples and output sample [i] is
    the input sample at index [i * 3 * channels], which exists: channel 0 of
    input frame [i * 3] ([channels] is the frame's channel count, 1 if it
    carries none). For every other pairing, whether or not its ratio is an
    integer, the samples are passed on unchanged. For ratio 3 and the mono
    input [10,20,30,40,50,60] the output is [10,40]. *)
Theorem decimation_only_from_48k_to_16k (cfg : config) (data : audio_data) (i : nat) :
  let rate := if bool_decide (sampleRate data = 0%Z) then 48000%Z else sampleRate data in
  let channels := if bool_decide (channelCount data = 0) then 1 else channelCount data in
  (rate = 48000%Z → ELEVENLABS_INPUT_SAMPLE_RATE cfg = 16000%Z →
   Z.to_nat (rate / ELEVENLABS_INPUT_SAMPLE_RATE cfg) = 3
   ∧ length (resample cfg data) = length (samples data) / 3 / channels
   ∧ (i < length (samples data) / 3 / channels →
      is_Some (samples data !! (i * 3 * channels))
      ∧ resample cfg data !! i = samples data !! (i * 3 * channels)))
  ∧ (rate ≠ 48000%Z ∨ ELEVENLABS_INPUT_SAMPLE_RATE cfg ≠ 16000%Z →
     resample cfg data = samples data)
  ∧ resample audio_config
      {| samples := [10; 20; 30; 40; 50; 60]%Z; sampleRate := 48000; bitsPerSample := 16;
         channelCount := 1; numberOfFrames := 6 |} = [10; 40]%Z.
Proof.
  intros rate channels. split_and!.
  - intros Hrate Htarget.
    assert (Hch : 0 < channels) by (subst channels; case_bool_decide; lia).
    rewrite (resample_48k_to_16k cfg data Hrate Htarget). fold channels.
    rewrite Hrate, Htarget.
    split_and!; [done|apply length_decimate|].
    intros Hi. by apply decimate_lookup; [lia|done|done].
  - apply resample_other_rates.
  - vm_compute. reflexivity.
Qed.

Lemma decimation_only_from_48k_to_16k_witness :
  resample audio_config
    {| samples := [1; 2; 3; 4; 5; 6; 7; 8; 9; 10; 11; 12]%Z; sampleRate := 48000;
       bitsPerSample := 16; channelCount := 2; numberOfFrames := 6 |} !! 1
  = Some 7%Z
  ∧ resample audio_config
      {| samples := [1; 2; 3; 4]%Z; sampleRate := 32000;
         bitsPerSample := 16; channelCount := 1; numberOfFrames := 4 |}
    = [1; 2; 3; 4]%Z.
Proof.
  split.
  - refine (eq_trans (proj2 (proj2 (proj2 (proj1 (decimation_only_from_48k_to_16k audio_config
      {| samples := [1; 2; 3; 4; 5; 6; 7; 8; 9; 10; 11; 12]%Z; sampleRate := 48000;
         bitsPerSample := 16; channelCount := 2; numberOfFrames := 6 |} 1) _ _)) _)) _).
    + reflexivity.
    + reflexivity.
    + vm_compute. lia.
    + reflexivity.
  - refine (proj1 (proj2 (decimation_only_from_48k_to_16k audio_config
      {| samples := [1; 2; 3; 4]%Z; sampleRate := 32000;
         bitsPerSample := 16; channelCount := 1; numberOfFrames := 4 |} 0)) _).
    left. vm_compute. discriminate.
Defined.

(** C7, as stated, fails: 44100 / 16000 is not an integer, yet the session
    starts listening and a 44.1 kHz frame is accumulated like any other. *)
Lemma non_integer_ratio_is_processed :
  let data := {| samples := [1; 2]%Z; sampleRate := 44100; bitsPerSample := 16;
                 channelCount := 1; numberOfFrames := 2 |} in
  (sampleRate data mod ELEVENLABS_INPUT_SAMPLE_RATE audio_config ≠ 0)%Z
  ∧ (setupAudioBridge open_session).2 = Listening fresh_capture
  ∧ ondata audio_config data (fresh_capture, open_session)
    = ({| sampleCount := 1; audioBuffer := [1; 0; 2; 0]%Z |}, open_session).
Proof. vm_compute. split_and!; done. Qed.

(** C7, amended. No rate pairing is refused. Starting the bridge fails only
    when there is no WhatsApp stream to read, whatever the rates; and a
    frame whose rate is not a whole multiple of the configured target rate,
    and more generally any frame whose rate is not 48000 or whose target
    rate is not 16000, is not converted: with the socket open its samples
    are appended to the accumulator as they are, and flushed at the
    threshold like any others. *)
Theorem non_integer_ratio_passes_through (cfg : config) (data : audio_data)
    (c : capture) (s : session) :
  let rate := if bool_decide (sampleRate data = 0%Z) then 48000%Z else sampleRate data in
  (rate mod ELEVENLABS_INPUT_SAMPLE_RATE cfg ≠ 0)%Z
  ∨ rate ≠ 48000%Z
  ∨ ELEVENLABS_INPUT_SAMPLE_RATE cfg ≠ 16000%Z →
  resample cfg data = samples data
  ∧ (is_open (elevenLabsWs s) = true →
     let accumulated := audioBuffer c ++ bytes_of_samples (samples data) in
     ondata cfg data (c, s)
     = if bool_decide (CHUNK_SIZE cfg ≤ length accumulated)
       then ({| sampleCount := S (sampleCount c); audioBuffer := [] |},
             sendAudioToElevenLabs accumulated s)
       else ({| sampleCount := S (sampleCount c); audioBuffer := accumulated |}, s))
  ∧ (∀ s', (setupAudioBridge s').2 = SetupError ↔ whatsappStream s' = None).
Proof.
  intros rate Hpairing.
  assert (Hres : resample cfg data = samples data).
  { apply resample_other_rates. fold rate.
    destruct Hpairing as [Hratio|[Hrate|Htarget]]; [|by left|by right].
    destruct (decide (rate = 48000%Z)) as [Hr|Hr]; [|by left].
    destruct (decide (ELEVENLABS_INPUT_SAMPLE_RATE cfg = 16000%Z)) as [He|He]; [|by right].
    rewrite Hr, He in Hratio. by contradict Hratio. }
  split_and!; [done| |].
  - intros Hopen. rewrite ondata_open by done. by rewrite Hres.
  - intros s'. unfold setupAudioBridge.
    destruct (whatsappStream s') as [[|t ts]|]; simpl; split; done.
Qed.

Lemma non_integer_ratio_passes_through_witness :
  resample audio_config
    {| samples := [1; 2]%Z; sampleRate := 44100; bitsPerSample := 16;
       channelCount := 1; numberOfFrames := 2 |} = [1; 2]%Z
  ∧ resample audio_config
      {| samples := [1; 2]%Z; sampleRate := 32000; bitsPerSample := 16;
         channelCount := 1; numberOfFrames := 2 |} = [1; 2]%Z.
Proof.
  split.
  - refine (proj1 (non_integer_ratio_passes_through audio_config
      {| samples := [1; 2]%Z; sampleRate := 44100; bitsPerSample := 16;
         channelCount := 1; numberOfFrames := 2 |} fresh_capture open_session _)).
    left. vm_compute. discriminate.
  - refine (proj1 (non_integer_ratio_passes_through audio_config
      {| samples := [1; 2]%Z; sampleRate := 32000; bitsPerSample := 16;
         channelCount := 1; numberOfFrames := 2 |} fresh_capture open_session _)).
    right. left. vm_compute. discriminate.
Defined.

(** C8. Nothing is sent while the socket is not open. A capture invocation
    that finds the socket missing or not OPEN returns at once: nothing is
    sent, nothing is counted, the accumulator is as it was, so the rest of
    the trace runs exactly as if the invocation had not happened. A chunk
    given to [sendAudioToElevenLabs] in that state is dropped: the session,
    its send count and the socket's sent list included, does not change. *)
Theorem no_send_while_closed (cfg : config) (data : audio_data) (c : capture) (s : session) :
  is_open (elevenLabsWs s) = false →
  ondata cfg data (c, s) = (c, s)
  ∧ sent_chunks (ondata cfg data (c, s)).2 = sent_chunks s
  ∧ (∀ chunk, sendAudioToElevenLabs chunk s = s)
  ∧ (∀ ops, Bridge.run cfg (OnData data :: ops) (c, s) = Bridge.run cfg ops (c, s)).
Proof.
  intros Hclosed.
  pose proof (ondata_closed cfg data c s Hclosed) as Hsame.
  split_and!; [done|by rewrite Hsame| |].
  - intros chunk. by apply send_closed.
  - intros ops.
    change (Bridge.run cfg (OnData data :: ops) (c, s))
      with (Bridge.run cfg ops (ondata cfg data (c, s))).
    by rewrite Hsame.
Qed.

Lemma no_send_while_closed_witness :
  let closing := setElevenLabsWs (Some {| readyState := CLOSING; sent := [] |}) open_session in
  ondata audio_config (frame48k 1 2 3) (fresh_capture, closing) = (fresh_capture, closing).
Proof.
  intros closing.
  refine (proj1 (no_send_while_closed audio_config (frame48k 1 2 3) fresh_capture closing _)).
  reflexivity.
Defined.

(* ===================================================================== *)
(** ** Properties of the ingest path *)
(* ===================================================================== *)

(** Induction over a byte list two bytes at a time. *)
Lemma byte_pairs_ind (P : list Z → Prop) :
  P [] → (∀ lo, P [lo]) → (∀ lo hi rest, P rest → P (lo :: hi :: rest)) →
  ∀ b, P b.
Proof.
  intros Hnil Hone Hpair b.
  cut (P b ∧ ∀ x, P (x :: b)); [by intros [? _]|].
  induction b as [|y b [IH1 IH2]]; split; auto.
Qed.

Lemma length_samples_of_bytes (b : list Z) :
  length (samples_of_bytes b) = length b / 2.
Proof.
  induction b as [|lo|lo hi rest IH] using byte_pairs_ind; [done..|].
  simpl samples_of_bytes. simpl length. rewrite IH.
  change (S (S (length rest))) with (1 * 2 + length rest).
  rewrite Nat.add_comm, Nat.div_add by done. lia.
Qed.

(** A trailing single byte is never read. *)
Lemma samples_of_bytes_even_prefix (b : list Z) :
  samples_of_bytes (take (length b / 2 * 2) b) = samples_of_bytes b.
Proof.
  induction b as [|lo|lo hi rest IH] using byte_pairs_ind; [done..|].
  simpl length.
  change (S (S (length rest))) with (1 * 2 + length rest).
  rewrite (Nat.add_comm (1 * 2)), Nat.div_add by done.
  replace ((length rest / 2 + 1) * 2) with (S (S (length rest / 2 * 2))) by lia.
  simpl. f_equal. apply IH.
Qed.

(** The buffer the handler interprets: the payload without its odd byte. *)
Lemma handler_pcmData (audioData : list Z) :
  (if bool_decide (length audioData mod 2 ≠ 0)
   then take (length audioData - 1) audioData else audioData)
  = take (length audioData / 2 * 2) audioData.
Proof.
  pose proof (Nat.div_mod_eq (length audioData) 2) as Hdm.
  pose proof (Nat.mod_upper_bound (length audioData) 2) as Hm.
  case_bool_decide as Hodd.
  - f_equal. lia.
  - rewrite take_ge; [done|lia].
Qed.

(** A delivery is a run of the playback module's own operations. *)
Lemma handler_is_playback_trace cfg (audioData : list Z) (w : world) :
  Handler.handleElevenLabsAudio audioData w
  = Playback.run cfg
      (match session_audioSource w with
       | None => []
       | Some _ =>
           if bool_decide (length audioData < 2)
           then [IncrementElevenLabsAudioCount]
           else [IncrementElevenLabsAudioCount;
                 AddToPlaybackBuffer
                   (samples_of_bytes (take (length audioData / 2 * 2) audioData));
                 StartAudioPlayback]
       end) w.
Proof.
  unfold Handler.handleElevenLabsAudio. destruct (session_audioSource w); [|done].
  rewrite handler_pcmData.
  assert (Hlen : length (take (length audioData / 2 * 2) audioData) < 2
                 ↔ length audioData < 2).
  { rewrite length_take.
    pose proof (Nat.div_mod_eq (length audioData) 2).
    pose proof (Nat.mod_upper_bound (length audioData) 2). lia. }
  by rewrite (bool_decide_ext _ _ Hlen); case_bool_decide.
Qed.

(** Without an audio source a delivery is skipped. *)
Lemma handler_without_source (audioData : list Z) (w : world) :
  session_audioSource w = None → Handler.handleElevenLabsAudio audioData w = w.
Proof. intros Hsrc. unfold Handler.handleElevenLabsAudio. by rewrite Hsrc. Qed.

(** C6. Odd-length and undersized payloads. With an audio source in place,
    the handler drops the trailing byte of an odd-length payload and
    appends the remaining bytes, read as 16-bit samples, to the playback
    buffer: floor(length / 2) samples, so 2 for a 5-byte payload. A payload
    left with fewer than 2 bytes changes neither the buffer nor the timer,
    the interval table or the frames sent. The handler is a total function:
    every payload yields a state, none an error. *)
Theorem odd_and_short_payloads (audioData : list Z) (w : world) (src : sink) :
  session_audioSource w = Some src →
  let w' := Handler.handleElevenLabsAudio audioData w in
  elevenLabsAudioBuffer w'
  = elevenLabsAudioBuffer w ++ samples_of_bytes (take (length audioData / 2 * 2) audioData)
  ∧ (length audioData mod 2 ≠ 0 →
     elevenLabsAudioBuffer w'
     = elevenLabsAudioBuffer w ++ samples_of_bytes (take (length audioData - 1) audioData))
  ∧ length (elevenLabsAudioBuffer w') = length (elevenLabsAudioBuffer w) + length audioData / 2
  ∧ (length audioData = 5 →
     length (elevenLabsAudioBuffer w') = length (elevenLabsAudioBuffer w) + 2)
  ∧ (length audioData < 2 →
     elevenLabsAudioBuffer w' = elevenLabsAudioBuffer w
     ∧ audioPlaybackTimer w' = audioPlaybackTimer w
     ∧ intervals w' = intervals w
     ∧ onData_calls w' = onData_calls w).
Proof.
  intros Hsrc w'.
  assert (Hbuf : elevenLabsAudioBuffer w'
    = elevenLabsAudioBuffer w ++ samples_of_bytes (take (length audioData / 2 * 2) audioData)).
  { subst w'. unfold Handler.handleElevenLabsAudio. rewrite Hsrc.
    rewrite handler_pcmData. case_bool_decide as Hshort.
    - simpl. destruct (take _ audioData) as [|lo [|hi rest]] eqn:Ht; simpl in *;
        [by rewrite app_nil_r..|lia].
    - unfold startAudioPlayback, addToPlaybackBuffer. simpl.
      by destruct (audioPlaybackTimer w). }
  assert (Hlen : length (elevenLabsAudioBuffer w')
                 = length (elevenLabsAudioBuffer w) + length audioData / 2).
  { rewrite Hbuf, length_app, samples_of_bytes_even_prefix.
    by rewrite length_samples_of_bytes. }
  split_and!; [done| |done| |].
  - intros Hodd. rewrite Hbuf. do 3 f_equal.
    pose proof (Nat.div_mod_eq (length audioData) 2).
    pose proof (Nat.mod_upper_bound (length audioData) 2). lia.
  - intros H5. by rewrite Hlen, H5.
  - intros Hshort. subst w'. unfold Handler.handleElevenLabsAudio. rewrite Hsrc.
    rewrite handler_pcmData. rewrite bool_decide_eq_true_2; [done|].
    rewrite length_take. lia.
Qed.

Lemma odd_and_short_payloads_witness :
  elevenLabsAudioBuffer
    (Handler.handleElevenLabsAudio [1; 0; 255; 255; 9]%Z (init (Some 3)))
  = [1; -1]%Z.
Proof.
  refine (eq_trans (proj1 (odd_and_short_payloads [1; 0; 255; 255; 9]%Z
                             (init (Some 3)) 3 _)) _).
  - reflexivity.
  - reflexivity.
Defined.

(* ===================================================================== *)
(** ** Properties of the upsampling handler *)
(* ===================================================================== *)

Import Legacy.

(** Rounding a value that lies between two integers stays between them. *)
Lemma Math_round_between (lo hi : Z) (x : Q) :
  (inject_Z lo <= x)%Q → (x <= inject_Z hi)%Q → (lo ≤ Math_round x ≤ hi)%Z.
Proof.
  intros Hlo Hhi. unfold Math_round. split.
  - rewrite <- (Qfloor_Z lo). apply Qfloor_resp_le. lra.
  - pose proof (Qfloor_le (x + (1 # 2))) as Hfl.
    cut (Qfloor (x + (1 # 2)) < hi + 1)%Z; [lia|].
    rewrite Zlt_Qlt, inject_Z_plus. change (inject_Z 1) with 1%Q. lra.
Qed.

Lemma interpolation_fraction (ratio j : nat) :
  j < ratio →
  (0 <= Z.of_nat j # Pos.of_nat ratio)%Q ∧ (Z.of_nat j # Pos.of_nat ratio <= 1)%Q.
Proof.
  intros Hj. unfold Qle. simpl.
  assert (Hp : Z.pos (Pos.of_nat ratio) = Z.of_nat ratio).
  { rewrite <- positive_nat_Z, Nat2Pos.id by lia. done. }
  rewrite Hp. lia.
Qed.

(** An interpolated value lies between the two samples it is made of. *)
Lemma interpolate_between (ratio : nat) (a b : Z) (j : nat) :
  j < ratio → (Z.min a b ≤ interpolate ratio a b j ≤ Z.max a b)%Z.
Proof.
  intros Hj. unfold interpolate.
  destruct (interpolation_fraction ratio j Hj) as [Ht0 Ht1].
  set (t := (Z.of_nat j # Pos.of_nat ratio)%Q) in *.
  assert (Ha1 : (inject_Z (Z.min a b) <= inject_Z a)%Q) by (rewrite <- Zle_Qle; lia).
  assert (Hb1 : (inject_Z (Z.min a b) <= inject_Z b)%Q) by (rewrite <- Zle_Qle; lia).
  assert (Ha2 : (inject_Z a <= inject_Z (Z.max a b))%Q) by (rewrite <- Zle_Qle; lia).
  assert (Hb2 : (inject_Z b <= inject_Z (Z.max a b))%Q) by (rewrite <- Zle_Qle; lia).
  apply Math_round_between; nra.
Qed.

Lemma to_int16_id (x : Z) : int16 x → to_int16 x = x.
Proof.
  unfold int16, to_int16. intros Hx.
  rewrite Z.mod_small by lia. lia.
Qed.

(** So storing it into the [Int16Array] does not wrap. *)
Lemma interpolate_int16 (ratio : nat) (a b : Z) (j : nat) :
  int16 a → int16 b → j < ratio →
  to_int16 (interpolate ratio a b j) = interpolate ratio a b j.
Proof.
  intros Ha Hb Hj. apply to_int16_id.
  pose proof (interpolate_between ratio a b j Hj).
  unfold int16 in *. lia.
Qed.

(** The inner loop writes [f j] at [idx + j] for the [j] it runs over, where
    the array has such an index, and leaves every other element alone. *)
Lemma inner_loop_lookup (f : nat → Z) (idx m : nat) :
  ∀ (a : nat) (l : list Z) (p : nat),
    foldl (λ out j, <[idx + j := f j]> out) l (seq a m) !! p
    = if decide (idx + a ≤ p < idx + a + m ∧ p < length l)
      then Some (f (p - idx)) else l !! p.
Proof.
  induction m as [|m IH]; intros a l p.
  - simpl. case_decide; [lia|done].
  - simpl. rewrite IH, length_insert.
    destruct (decide (p = idx + a)) as [->|Hne].
    + rewrite decide_False by lia.
      destruct (decide (idx + a < length l)) as [Hin|Hout].
      * rewrite decide_True by lia. rewrite list_lookup_insert_eq by done.
        do 2 f_equal. lia.
      * rewrite decide_False by lia. rewrite list_insert_ge by lia. done.
    + rewrite list_lookup_insert_ne by done.
      repeat case_decide; try done; lia.
Qed.

Lemma inner_loop_length (f : nat → Z) (idx : nat) (js : list nat) :
  ∀ l : list Z, length (foldl (λ out j, <[idx + j := f j]> out) l js) = length l.
Proof.
  induction js as [|j js IH]; intros l; [done|].
  simpl. by rewrite IH, length_insert.
Qed.

Section OuterLoop.
Variables (ratio : nat) (samples16k : list Z).

Lemma loop_body_length (l : list Z) (i : nat) :
  length (loop_body ratio samples16k l i) = length l.
Proof. apply (inner_loop_length (stored ratio samples16k i) (i * ratio)). Qed.

Lemma loop_body_lookup (l : list Z) (i p : nat) :
  loop_body ratio samples16k l i !! p
  = if decide (i * ratio ≤ p < i * ratio + ratio ∧ p < length l)
    then Some (stored ratio samples16k i (p - i * ratio)) else l !! p.
Proof.
  unfold loop_body.
  rewrite (inner_loop_lookup (stored ratio samples16k i) (i * ratio) ratio 0).
  repeat case_decide; try done; lia.
Qed.

Lemma outer_loop_length (idxs : list nat) :
  ∀ l : list Z, length (foldl (loop_body ratio samples16k) l idxs) = length l.
Proof.
  induction idxs as [|i idxs IH]; intros l; [done|].
  cbn [foldl]. rewrite IH. apply loop_body_length.
Qed.

(** The outer loop, run over [m] input indices from [a]: element [p] in
    the range they cover holds the value stored for [p / ratio] at step
    [p mod ratio]; every other element is untouched. *)
Lemma outer_loop_lookup (m : nat) :
  ∀ (a : nat) (l : list Z) (p : nat),
    foldl (loop_body ratio samples16k) l (seq a m) !! p
    = if decide (a * ratio ≤ p < (a + m) * ratio ∧ p < length l)
      then Some (stored ratio samples16k (p / ratio) (p mod ratio)) else l !! p.
Proof.
  induction m as [|m IH]; intros a l p.
  - simpl. case_decide; [lia|done].
  - cbn [seq foldl]. rewrite IH, loop_body_length, loop_body_lookup.
    destruct (decide (a * ratio ≤ p < a * ratio + ratio)) as [Hin|Hout].
    + rewrite decide_False by lia.
      pose proof (Nat.div_unique p ratio a (p - a * ratio)
                    ltac:(lia) ltac:(lia)) as Hq.
      pose proof (Nat.mod_unique p ratio a (p - a * ratio)
                    ltac:(lia) ltac:(lia)) as Hr.
      rewrite <- Hq, <- Hr. repeat case_decide; try done; lia.
    + repeat case_decide; try done; lia.
Qed.

Lemma upsample_unfold :
  upsample ratio samples16k
  = foldl (loop_body ratio samples16k) (replicate (length samples16k * ratio) 0%Z)
          (seq 0 (length samples16k - 1)).
Proof. reflexivity. Qed.

Lemma length_upsample : length (upsample ratio samples16k) = length samples16k * ratio.
Proof. by rewrite upsample_unfold, outer_loop_length, length_replicate. Qed.

(** Every element of the output: interpolated up to the last pair, zero
    in the last [ratio] places. *)
Lemma upsample_lookup (p : nat) :
  upsample ratio samples16k !! p
  = if decide (p < (length samples16k - 1) * ratio)
    then Some (stored ratio samples16k (p / ratio) (p mod ratio))
    else if decide (p < length samples16k * ratio) then Some 0%Z else None.
Proof.
  rewrite upsample_unfold, outer_loop_lookup, length_replicate. simpl.
  destruct (decide (p < (length samples16k - 1) * ratio)) as [Hp|Hp].
  - rewrite decide_True; [done|]. nia.
  - rewrite decide_False by lia. case_decide.
    + by apply lookup_replicate_2.
    + apply lookup_replicate_None. lia.
Qed.

End OuterLoop.

(** C5, as stated, fails: the output array is allocated with
    [length * ratio] elements and handed to the sink whole, so for ratio 3
    and input [0, 300] the frame is not [0, 100, 200]: three more samples
    follow, in the place of the dangling last input sample. *)
Lemma upsample_emits_a_tail :
  upsample 3 [0; 300]%Z = [0; 100; 200; 0; 0; 0]%Z
  ∧ upsample 3 [0; 300]%Z ≠ [0; 100; 200]%Z
  ∧ Legacy.handleElevenLabsAudio (Some 1) 0 (bytes_of_samples [0; 300]%Z)
    = Some (1, {| samples := [0; 100; 200; 0; 0; 0]%Z; sampleRate := 48000;
                  bitsPerSample := 16; channelCount := 1; numberOfFrames := 6 |}).
Proof. vm_compute. split_and!; [reflexivity|discriminate|reflexivity]. Qed.

(** C5, amended. Upsampling by linear interpolation with ratio =
    native rate / input rate writes, for each consecutive input pair
    [s[i]], [s[i+1]] and each [j] in [0, ratio), the output sample
    [round(s[i] * (1 - t) + s[i+1] * t)], [t = j / ratio], at index
    [i * ratio + j]. The output has [length * ratio] samples: the last
    input sample has no successor, and the [ratio] output samples in its
    place are 0. For ratio 3 and input [0, 300] the output is
    [0, 100, 200, 0, 0, 0]. *)
Theorem upsample_interpolates (ratio : nat) (samples16k : list Z) (i j : nat) (a b : Z) :
  samples16k !! i = Some a →
  samples16k !! (i + 1) = Some b →
  int16 a → int16 b →
  j < ratio →
  upsample ratio samples16k !! (i * ratio + j)
  = Some (Math_round (inject_Z a * (1 - (Z.of_nat j # Pos.of_nat ratio))
                      + inject_Z b * (Z.of_nat j # Pos.of_nat ratio))%Q)
  ∧ length (upsample ratio samples16k) = length samples16k * ratio
  ∧ (∀ p, (length samples16k - 1) * ratio ≤ p < length samples16k * ratio →
          upsample ratio samples16k !! p = Some 0%Z)
  ∧ upsample 3 [0; 300]%Z = [0; 100; 200; 0; 0; 0]%Z.
Proof.
  intros Ha Hb Hia Hib Hj.
  split_and!; [|apply length_upsample| |vm_compute; reflexivity].
  - apply lookup_lt_Some in Hb as Hlen.
    rewrite upsample_lookup, decide_True by nia.
    pose proof (Nat.div_unique (i * ratio + j) ratio i j ltac:(lia) ltac:(lia)) as Hq.
    pose proof (Nat.mod_unique (i * ratio + j) ratio i j ltac:(lia) ltac:(lia)) as Hr.
    rewrite <- Hq, <- Hr. unfold stored, read. rewrite Ha, Hb. simpl.
    f_equal. by apply interpolate_int16.
  - intros p Hp. rewrite upsample_lookup, decide_False by lia.
    by rewrite decide_True by lia.
Qed.

Lemma upsample_interpolates_witness :
  upsample 3 [0; 300]%Z !! 2 = Some 200%Z.
Proof.
  refine (eq_trans (proj1 (upsample_interpolates 3 [0; 300]%Z 0 2 0 300 _ _ _ _ _)) _).
  - reflexivity.
  - reflexivity.
  - unfold int16. lia.
  - unfold int16. lia.
  - lia.
  - vm_compute. reflexivity.
Defined.

(* ===================================================================== *)
(** ** More on the byte encoding of samples *)
(* ===================================================================== *)

Lemma int16_bytes_decode (x : Z) :
  int16 x → to_int16 (x mod 256 + 256 * ((x / 256) mod 256)) = x.
Proof.
  unfold int16, to_int16. intros Hx.
  replace (x mod 256 + 256 * ((x / 256) mod 256))%Z with (x mod (256 * 256))%Z
    by (rewrite Z.rem_mul_r by lia; lia).
  change (256 * 256)%Z with 65536%Z.
  rewrite Zplus_mod_idemp_l, Z.mod_small by lia. lia.
Qed.

(** Decoding the bytes of 16-bit samples gives the samples back. *)
Lemma samples_of_bytes_of_samples (l : list Z) :
  Forall int16 l → samples_of_bytes (bytes_of_samples l) = l.
Proof.
  unfold bytes_of_samples. induction 1 as [|x l Hx _ IH]; [done|].
  rewrite bind_cons. simpl. rewrite IH. f_equal. by apply int16_bytes_decode.
Qed.

Lemma to_int16_range (x : Z) : int16 (to_int16 x).
Proof.
  unfold int16, to_int16.
  pose proof (Z.mod_pos_bound (x + 32768) 65536). lia.
Qed.

Lemma samples_of_bytes_int16 (b : list Z) : Forall int16 (samples_of_bytes b).
Proof.
  induction b as [|lo|lo hi rest IH] using byte_pairs_ind; simpl; [done..|].
  constructor; [apply to_int16_range|done].
Qed.

(** What a delivery does to the buffer when there is an audio source. *)
Lemma handler_buffer (audioData : list Z) (w : world) (src : sink) :
  session_audioSource w = Some src →
  elevenLabsAudioBuffer (Handler.handleElevenLabsAudio audioData w)
  = elevenLabsAudioBuffer w ++ samples_of_bytes audioData.
Proof.
  intros Hsrc. rewrite <- (samples_of_bytes_even_prefix audioData).
  unfold Handler.handleElevenLabsAudio. rewrite Hsrc, handler_pcmData.
  case_bool_decide as Hshort.
  - simpl. destruct (take _ audioData) as [|lo [|hi rest]]; simpl in *;
      [by rewrite app_nil_r..|lia].
  - unfold startAudioPlayback, addToPlaybackBuffer. simpl.
    by destruct (audioPlaybackTimer w).
Qed.

(** X1. The two directions agree on the byte order: the bytes the capture
    path makes of 16-bit samples, delivered as a payload, append exactly
    those samples to the playback buffer. *)
Theorem capture_bytes_decode_back (l : list Z) (w : world) (src : sink) :
  session_audioSource w = Some src →
  Forall int16 l →
  elevenLabsAudioBuffer (Handler.handleElevenLabsAudio (bytes_of_samples l) w)
  = elevenLabsAudioBuffer w ++ l.
Proof.
  intros Hsrc Hl. rewrite (handler_buffer _ _ src Hsrc).
  by rewrite samples_of_bytes_of_samples.
Qed.

Lemma capture_bytes_decode_back_witness :
  elevenLabsAudioBuffer
    (Handler.handleElevenLabsAudio (bytes_of_samples [-32768; -1; 0; 32767]%Z) (init (Some 2)))
  = [-32768; -1; 0; 32767]%Z.
Proof.
  refine (capture_bytes_decode_back [-32768; -1; 0; 32767]%Z (init (Some 2)) 2 _ _).
  - reflexivity.
  - repeat constructor; unfold int16; lia.
Defined.

(* ===================================================================== *)
(** ** The capture path over the life of one socket: properties *)
(* ===================================================================== *)

(** One frame, by cases, when there is a socket. *)
Lemma frame_step cfg (data : audio_data) (c : capture) (s : session) (ws : websocket) :
  elevenLabsWs s = Some ws →
  Capture.step cfg (c, s) (Capture.Frame data)
  = if ready_state_eqb (readyState ws) OPEN then
      if bool_decide (CHUNK_SIZE cfg
                      ≤ length (audioBuffer c ++ bytes_of_samples (resample cfg data)))
      then ({| sampleCount := S (sampleCount c); audioBuffer := [] |},
            {| whatsappStream := whatsappStream s;
               elevenLabsWs :=
                 Some {| readyState := readyState ws;
                         sent := sent ws
                                 ++ [audioBuffer c ++ bytes_of_samples (resample cfg data)] |};
               audioSink := audioSink s;
               audioSendCount := S (audioSendCount s) |})
      else ({| sampleCount := S (sampleCount c);
               audioBuffer := audioBuffer c ++ bytes_of_samples (resample cfg data) |}, s)
    else (c, s).
Proof.
  intros Hws.
  change (Capture.step cfg (c, s) (Capture.Frame data)) with (ondata cfg data (c, s)).
  destruct (ready_state_eqb (readyState ws) OPEN) eqn:Hopen.
  - rewrite ondata_open by (unfold is_open; by rewrite Hws).
    case_bool_decide; [|done].
    unfold sendAudioToElevenLabs. by rewrite Hws, Hopen.
  - apply ondata_closed. unfold is_open. by rewrite Hws.
Qed.

Lemma state_change_step cfg (r : ready_state) (c : capture) (s : session) (ws : websocket) :
  elevenLabsWs s = Some ws →
  Capture.step cfg (c, s) (Capture.StateChange r)
  = (c, setElevenLabsWs (Some {| readyState := r; sent := sent ws |}) s).
Proof. intros Hws. simpl. unfold Capture.setReadyState. by rewrite Hws. Qed.

(** X2. Nothing is lost or reordered on the way out. Over any sequence of
    frames and state changes of one socket, the chunks sent, end to end,
    followed by what the accumulator holds, are the bytes of the frames
    that arrived while the socket was open, in arrival order; a frame that
    arrives while it is not open contributes nothing. *)
Theorem capture_stream_conserved cfg (events : list Capture.event)
    (c : capture) (s : session) (ws : websocket) :
  elevenLabsWs s = Some ws →
  concat (sent_chunks (Capture.run cfg events (c, s)).2)
  ++ audioBuffer (Capture.run cfg events (c, s)).1
  = concat (sent ws) ++ audioBuffer c
    ++ Capture.accepted cfg events (ready_state_eqb (readyState ws) OPEN).
Proof.
  revert c s ws. induction events as [|e events IH]; intros c s ws Hws.
  - simpl. unfold sent_chunks. by rewrite Hws, app_nil_r.
  - change (Capture.run cfg (e :: events) (c, s))
      with (Capture.run cfg events (Capture.step cfg (c, s) e)).
    destruct e as [data|r].
    + rewrite (frame_step cfg data c s ws Hws). simpl Capture.accepted.
      destruct (ready_state_eqb (readyState ws) OPEN) eqn:Hopen.
      * case_bool_decide.
        -- erewrite IH by done. simpl. rewrite Hopen, concat_app. simpl.
           by rewrite app_nil_r, <- !app_assoc.
        -- erewrite IH by done. simpl. by rewrite Hopen, <- !app_assoc.
      * erewrite IH by done. by rewrite Hopen.
    + rewrite (state_change_step cfg r c s ws Hws). simpl Capture.accepted.
      by erewrite IH by done.
Qed.

Lemma capture_stream_conserved_witness :
  let events := [Capture.Frame (frame48k 1 2 3); Capture.StateChange CLOSED;
                 Capture.Frame (frame48k 4 5 6); Capture.StateChange OPEN;
                 Capture.Frame (frame48k 7 8 9)] in
  concat (sent_chunks (Capture.run audio_config events (fresh_capture, open_session)).2)
  ++ audioBuffer (Capture.run audio_config events (fresh_capture, open_session)).1
  = [1; 0; 7; 0]%Z.
Proof.
  intros events.
  refine (eq_trans (capture_stream_conserved audio_config events fresh_capture open_session
                      {| readyState := OPEN; sent := [] |} _) _).
  - reflexivity.
  - vm_compute. reflexivity.
Defined.

(** X3. Every chunk sent holds whole samples and at least the threshold:
    from an empty accumulator, each chunk handed to the socket has an even
    number of bytes, at least [CHUNK_SIZE] of them, and fewer than
    [CHUNK_SIZE] plus the bytes of the largest frame. The send counter
    grows by one per chunk. *)
Theorem capture_chunks_bounded cfg (m : nat) (events : list Capture.event)
    (s : session) (ws : websocket) :
  elevenLabsWs s = Some ws →
  0 < CHUNK_SIZE cfg →
  (∀ data, Capture.Frame data ∈ events → length (resample cfg data) ≤ m) →
  ∃ new_chunks,
    sent_chunks (Capture.run cfg events (fresh_capture, s)).2 = sent ws ++ new_chunks
    ∧ Forall (λ chunk, Nat.Even (length chunk)
                       ∧ CHUNK_SIZE cfg ≤ length chunk < CHUNK_SIZE cfg + 2 * m) new_chunks
    ∧ audioSendCount (Capture.run cfg events (fresh_capture, s)).2
      = audioSendCount s + length new_chunks.
Proof.
  intros Hws Hpos Hm.
  cut (∀ c s ws,
        elevenLabsWs s = Some ws →
        Nat.Even (length (audioBuffer c)) → length (audioBuffer c) < CHUNK_SIZE cfg →
        ∃ new_chunks,
          sent_chunks (Capture.run cfg events (c, s)).2 = sent ws ++ new_chunks
          ∧ Forall (λ chunk, Nat.Even (length chunk)
                     ∧ CHUNK_SIZE cfg ≤ length chunk < CHUNK_SIZE cfg + 2 * m) new_chunks
          ∧ audioSendCount (Capture.run cfg events (c, s)).2
            = audioSendCount s + length new_chunks).
  { intros Hgen. apply Hgen; [done|exists 0; reflexivity|simpl; lia]. }
  clear s ws Hws. induction events as [|e events IH]; intros c s ws Hws Heven Hlt.
  - exists []. simpl. unfold sent_chunks. rewrite Hws, app_nil_r. split_and!; [done|done|lia].
  - change (Capture.run cfg (e :: events) (c, s))
      with (Capture.run cfg events (Capture.step cfg (c, s) e)).
    assert (Hm' : ∀ data, Capture.Frame data ∈ events → length (resample cfg data) ≤ m).
    { intros data Hin. apply Hm. by right. }
    destruct e as [data|r].
    + rewrite (frame_step cfg data c s ws Hws).
      assert (Hdata : length (resample cfg data) ≤ m) by (apply Hm; left).
      assert (Hacc : length (audioBuffer c ++ bytes_of_samples (resample cfg data))
                     = length (audioBuffer c) + 2 * length (resample cfg data)).
      { by rewrite length_app, length_bytes_of_samples. }
      assert (Heven' : Nat.Even (length (audioBuffer c ++ bytes_of_samples (resample cfg data)))).
      { rewrite Hacc. destruct Heven as [k Hk]. exists (k + length (resample cfg data)). lia. }
      destruct (ready_state_eqb (readyState ws) OPEN).
      * case_bool_decide as Hfull.
        -- match goal with
           | |- context [Capture.run cfg events (?c', ?s')] =>
               destruct (IH Hm' c' s' _ eq_refl) as (new & Hsent & Hall & Hcount);
                 [exists 0; reflexivity|simpl; lia|]
           end.
           exists ((audioBuffer c ++ bytes_of_samples (resample cfg data)) :: new).
           rewrite Hsent, Hcount. simpl. split_and!.
           ++ by rewrite <- app_assoc.
           ++ constructor; [|done]. split; [done|]. lia.
           ++ lia.
        -- apply (IH Hm' _ _ ws); [done|done|simpl; lia].
      * by apply (IH Hm' _ _ ws).
    + rewrite (state_change_step cfg r c s ws Hws).
      destruct (IH Hm' c (setElevenLabsWs (Some {| readyState := r; sent := sent ws |}) s)
                  {| readyState := r; sent := sent ws |} eq_refl Heven Hlt)
        as (new & Hsent & Hall & Hcount).
      by exists new.
Qed.

Lemma capture_chunks_bounded_witness :
  ∃ new_chunks,
    sent_chunks (Capture.run audio_config
                   (replicate 2000 (Capture.Frame (frame48k 1 2 3)))
                   (fresh_capture, open_session)).2 = [] ++ new_chunks
    ∧ Forall (λ chunk, Nat.Even (length chunk)
                       ∧ 4000 ≤ length chunk < 4000 + 2 * 1) new_chunks
    ∧ audioSendCount (Capture.run audio_config
                        (replicate 2000 (Capture.Frame (frame48k 1 2 3)))
                        (fresh_capture, open_session)).2
      = 0 + length new_chunks.
Proof.
  refine (capture_chunks_bounded audio_config 1
            (replicate 2000 (Capture.Frame (frame48k 1 2 3)))
            open_session {| readyState := OPEN; sent := [] |} _ _ _).
  - reflexivity.
  - simpl. lia.
  - intros data Hin. apply elem_of_replicate in Hin as [Hd _].
    injection Hd as ->. vm_compute. lia.
Defined.

(** At the native rate the capture path decimates by 3. *)
Lemma resample_native (data : audio_data) :
  sampleRate data = 48000%Z → 0 < channelCount data →
  resample audio_config data = decimate 3 (channelCount data) (samples data).
Proof.
  intros Hrate Hch. unfold resample. rewrite Hrate. simpl.
  rewrite bool_decide_eq_false_2 by lia.
  by change (Z.to_nat (48000 `div` 16000)) with 3.
Qed.

Lemma standard_frame_bytes (data : audio_data) :
  Capture.standard_frame data →
  length (bytes_of_samples (resample audio_config data)) = 320.
Proof.
  intros (Hrate & Hch & Hlen).
  rewrite length_bytes_of_samples, resample_native by (done || lia).
  by rewrite length_decimate, Hlen, Hch.
Qed.

(** X4. The cadence of the shipped configuration. With the socket open and
    the sink delivering 10 ms frames (480 mono samples at 48 kHz), every
    13th frame completes a chunk: after [n] frames [n / 13] chunks have
    been sent, each of 4160 bytes (160 more than the threshold), and the
    accumulator holds 320 bytes for each frame since the last one. *)
Theorem standard_frames_cadence (frames : list audio_data) (s : session) (ws : websocket) :
  elevenLabsWs s = Some ws →
  readyState ws = OPEN →
  Forall Capture.standard_frame frames →
  ∃ new_chunks,
    sent_chunks (Capture.run audio_config (Capture.Frame <$> frames) (fresh_capture, s)).2
    = sent ws ++ new_chunks
    ∧ length new_chunks = length frames / 13
    ∧ Forall (λ chunk, length chunk = 4160) new_chunks
    ∧ length (audioBuffer
                (Capture.run audio_config (Capture.Frame <$> frames) (fresh_capture, s)).1)
      = length frames mod 13 * 320.
Proof.
  intros Hws Hopen Hall.
  cut (∀ j c s ws,
        elevenLabsWs s = Some ws → readyState ws = OPEN →
        j < 13 → length (audioBuffer c) = j * 320 →
        ∃ new_chunks,
          sent_chunks (Capture.run audio_config (Capture.Frame <$> frames) (c, s)).2
          = sent ws ++ new_chunks
          ∧ length new_chunks = (j + length frames) / 13
          ∧ Forall (λ chunk, length chunk = 4160) new_chunks
          ∧ length (audioBuffer
                      (Capture.run audio_config (Capture.Frame <$> frames) (c, s)).1)
            = (j + length frames) mod 13 * 320).
  { intros Hgen. apply (Hgen 0); [done|done|lia|done]. }
  clear s ws Hws Hopen.
  induction Hall as [|data frames Hdata _ IH]; intros j c s ws Hws Hopen Hj Hacc.
  - exists [].
    change (Capture.run audio_config (Capture.Frame <$> []) (c, s)) with (c, s).
    change (length (@nil audio_data)) with 0.
    unfold sent_chunks. cbn [fst snd]. rewrite Hws, app_nil_r, Nat.add_0_r.
    rewrite Nat.div_small, Nat.mod_small by done. done.
  - rewrite fmap_cons.
    change (Capture.run audio_config (Capture.Frame data :: (Capture.Frame <$> frames)) (c, s))
      with (Capture.run audio_config (Capture.Frame <$> frames)
              (Capture.step audio_config (c, s) (Capture.Frame data))).
    rewrite (frame_step audio_config data c s ws Hws), Hopen.
    pose proof (standard_frame_bytes data Hdata) as Hbytes.
    assert (Hlen : length (audioBuffer c ++ bytes_of_samples (resample audio_config data))
                   = S j * 320) by (rewrite length_app, Hacc, Hbytes; lia).
    simpl ready_state_eqb. cbv iota.
    destruct (decide (j = 12)) as [->|Hne].
    + rewrite bool_decide_eq_true_2 by (rewrite Hlen; simpl; lia).
      match goal with
      | |- context [Capture.run _ _ (?c', ?s')] =>
          destruct (IH 0 c' s' _ eq_refl eq_refl) as (new & Hsent & Hcount & Hsize & Hrest);
            [lia|done|]
      end.
      exists ((audioBuffer c ++ bytes_of_samples (resample audio_config data)) :: new).
      rewrite Hsent, Hrest. simpl length. rewrite Hcount.
      replace (12 + S (length frames)) with (length frames + 1 * 13) by lia.
      rewrite Nat.div_add, Nat.Div0.mod_add by done. simpl.
      split_and!; [by rewrite <- app_assoc|lia|by constructor|done].
    + rewrite bool_decide_eq_false_2 by (rewrite Hlen; simpl; lia).
      match goal with
      | |- context [Capture.run _ _ (?c', ?s')] =>
          destruct (IH (S j) c' s' ws Hws Hopen) as (new & Hsent & Hcount & Hsize & Hrest);
            [lia|done|]
      end.
      exists new. simpl length.
      replace (j + S (length frames)) with (S j + length frames) by lia.
      done.
Qed.

Lemma standard_frames_cadence_witness :
  let frame n := {| samples := replicate 480 n; sampleRate := 48000; bitsPerSample := 16;
                    channelCount := 1; numberOfFrames := 480 |} in
  ∃ new_chunks,
    sent_chunks (Capture.run audio_config (Capture.Frame <$> [frame 1%Z; frame 2%Z])
                   (fresh_capture, open_session)).2 = [] ++ new_chunks
    ∧ length new_chunks = 2 / 13
    ∧ Forall (λ chunk, length chunk = 4160) new_chunks
    ∧ length (audioBuffer
                (Capture.run audio_config (Capture.Frame <$> [frame 1%Z; frame 2%Z])
                   (fresh_capture, open_session)).1) = 2 mod 13 * 320.
Proof.
  intros frame.
  refine (standard_frames_cadence [frame 1%Z; frame 2%Z] open_session
            {| readyState := OPEN; sent := [] |} _ _ _).
  - reflexivity.
  - reflexivity.
  - repeat constructor.
Defined.

Lemma interleave_lookup_left (frames : list (Z * Z)) :
  ∀ k, Capture.interleave frames !! (2 * k) = fst <$> frames !! k.
Proof.
  unfold Capture.interleave.
  induction frames as [|[l r] frames IH]; intros k; [done|].
  rewrite bind_cons. destruct k as [|k]; [done|].
  replace (2 * S k) with (S (S (2 * k))) by lia. simpl. apply IH.
Qed.

Lemma length_interleave (frames : list (Z * Z)) :
  length (Capture.interleave frames) = 2 * length frames.
Proof.
  unfold Capture.interleave. induction frames as [|lr frames IH]; [done|].
  rewrite bind_cons, length_app, IH. simpl. lia.
Qed.

(** X5. A stereo frame is reduced to its left channel: decimating the
    interleaved samples with [channelCount = 2] gives what decimating the
    left channel alone gives; the right channel is never read. *)
Theorem stereo_takes_left_channel (frames : list (Z * Z)) (bits : Z) (n : nat) :
  resample audio_config
    {| samples := Capture.interleave frames; sampleRate := 48000; bitsPerSample := bits;
       channelCount := 2; numberOfFrames := n |}
  = resample audio_config
      {| samples := frames.*1; sampleRate := 48000; bitsPerSample := bits;
         channelCount := 1; numberOfFrames := n |}.
Proof.
  rewrite !resample_native by (simpl; (done || lia)). simpl.
  unfold decimate. rewrite length_interleave, length_fmap.
  replace (2 * length frames / 3 / 2) with (length frames / 3 / 1).
  - apply list_fmap_ext. intros _ i _. unfold read.
    replace (i * 3 * 2) with (2 * (i * 3)) by lia.
    rewrite interleave_lookup_left, Nat.mul_1_r, list_lookup_fmap. done.
  - rewrite Nat.div_1_r, Nat.Div0.div_div, (Nat.mul_comm 3 2).
    by rewrite Nat.Div0.div_mul_cancel_l.
Qed.

(* ===================================================================== *)
(** ** The playback module: reset, stale handles, the captured source *)
(* ===================================================================== *)

Lemma single_timer_lookup (w : world) (h : nat) :
  single_timer w → audioPlaybackTimer w ≠ Some h → intervals w !! h = None.
Proof.
  unfold single_timer. destruct (audioPlaybackTimer w) as [t|]; intros Hinv Hne.
  - destruct Hinv as [c ->]. apply lookup_singleton_ne. congruence.
  - by rewrite Hinv.
Qed.

Lemma resetPlayback_single_timer (w : world) :
  single_timer w →
  resetPlayback w
  = {| elevenLabsAudioBuffer := [];
       audioPlaybackTimer := None;
       elevenLabsAudioCount := 0;
       intervals := ∅;
       next_handle := next_handle w;
       session_audioSource := session_audioSource w;
       onData_calls := onData_calls w |}.
Proof.
  unfold single_timer, resetPlayback.
  destruct (audioPlaybackTimer w) as [t|] eqn:Ht;
    unfold set_count, set_buffer, set_timer, clearInterval; simpl.
  - intros [c Hc]. by rewrite Hc, delete_singleton_eq.
  - intros Hc. by rewrite Hc, Ht.
Qed.

(** X6. Cleanup leaves nothing running. After [cleanupConnections], in
    whatever state the call was, the playback buffer is empty, the timer
    variable is null, the host has no interval left, the counter is 0 and
    the audio source is forgotten; cleaning up again changes nothing, and
    no interval handle, old or new, does anything when fired. *)
Theorem cleanup_leaves_nothing_running cfg (src : option sink) (ops : list Playback.op) :
  let w := Handler.cleanupConnections (Playback.run cfg ops (init src)) in
  elevenLabsAudioBuffer w = []
  ∧ audioPlaybackTimer w = None
  ∧ intervals w = ∅
  ∧ elevenLabsAudioCount w = 0
  ∧ session_audioSource w = None
  ∧ Handler.cleanupConnections w = w
  ∧ (∀ h, Playback.tick cfg h w = w).
Proof.
  intros w.
  assert (Hw : w = {| elevenLabsAudioBuffer := [];
                      audioPlaybackTimer := None;
                      elevenLabsAudioCount := 0;
                      intervals := ∅;
                      next_handle := next_handle (Playback.run cfg ops (init src));
                      session_audioSource := None;
                      onData_calls := onData_calls (Playback.run cfg ops (init src)) |}).
  { subst w. unfold Handler.cleanupConnections.
    rewrite resetPlayback_single_timer; [done|].
    apply (step_single_timer cfg _ (SetAudioSource None)).
    by apply run_single_timer. }
  rewrite Hw. split_and!; try done.
Qed.

(** X7. Every frame handed to the sink is well formed. Over any trace from
    the freshly loaded module, resets included, each call of
    [audioSource.onData] carries exactly 480 samples, announces 480 frames
    of one channel at 16 bits, and the WhatsApp rate. *)
Theorem emitted_frames_well_formed (src : option sink) (ops : list Playback.op) :
  Forall (λ call, length (samples call.2) = 480
                  ∧ numberOfFrames call.2 = 480
                  ∧ channelCount call.2 = 1
                  ∧ bitsPerSample call.2 = 16%Z
                  ∧ sampleRate call.2 = 48000%Z)
         (onData_calls (Playback.run audio_config ops (init src))).
Proof.
  induction ops as [|o ops IH] using rev_ind; [constructor|].
  rewrite run_snoc. destruct o as [s| |h|s| |]; simpl; try done.
  - unfold startAudioPlayback. by destruct (audioPlaybackTimer _).
  - unfold Playback.tick. destruct (intervals _ !! h) as [captured|]; [|done].
    destruct (interval_callback_cases audio_config captured
                (Playback.run audio_config ops (init src)))
      as [(s & _ & Hlen & ->)|[(_ & _ & _ & ->)|[_ ->]]]; simpl in *.
    + apply Forall_app. split; [done|]. constructor; [|done]. simpl.
      by rewrite length_take_le.
    + by destruct (audioPlaybackTimer _).
    + done.
  - unfold resetPlayback. by destruct (audioPlaybackTimer _).
Qed.

(** X8. A cancelled interval never acts. In any state reached from the
    freshly loaded module, firing a handle other than the one the timer
    variable holds changes nothing: no emission, no change of buffer. *)
Theorem stale_handle_is_dead cfg (src : option sink) (ops : list Playback.op) (h : nat) :
  audioPlaybackTimer (Playback.run cfg ops (init src)) ≠ Some h →
  Playback.tick cfg h (Playback.run cfg ops (init src)) = Playback.run cfg ops (init src).
Proof.
  intros Hne. unfold Playback.tick.
  rewrite single_timer_lookup; [done| |done].
  by apply run_single_timer.
Qed.

Lemma stale_handle_is_dead_witness :
  let ops := [AddToPlaybackBuffer [1%Z]; StartAudioPlayback; ResetPlayback;
              AddToPlaybackBuffer (replicate 480 2%Z); StartAudioPlayback] in
  Playback.tick audio_config 0 (Playback.run audio_config ops (init (Some 4)))
  = Playback.run audio_config ops (init (Some 4)).
Proof.
  intros ops.
  refine (stale_handle_is_dead audio_config (Some 4) ops 0 _).
  vm_compute. discriminate.
Defined.

(** X9. The timer feeds the source it captured when it was started.
    Changing the session's audio source does not change what a tick does
    (the two commute), and a live interval with captured source [s] emits
    to [s] or not at all. *)
Theorem tick_uses_captured_source cfg (w : world) (h : nat) (s : sink) :
  intervals w !! h = Some (Some s) →
  (∀ s', Playback.tick cfg h (setAudioSource s' w) = setAudioSource s' (Playback.tick cfg h w))
  ∧ (onData_calls (Playback.tick cfg h w) = onData_calls w
     ∨ ∃ frame, onData_calls (Playback.tick cfg h w) = onData_calls w ++ [(s, frame)]).
Proof.
  intros Hlive. split.
  - intros s'. unfold Playback.tick. simpl. rewrite Hlive.
    unfold interval_callback. simpl.
    repeat case_bool_decide; try done.
    by destruct (audioPlaybackTimer w).
  - unfold Playback.tick. rewrite Hlive.
    destruct (interval_callback_cases cfg (Some s) w)
      as [(s0 & Hs0 & _ & ->)|[(_ & _ & _ & ->)|[_ ->]]]; simpl.
    + right. injection Hs0 as <-. by eexists.
    + left. by destruct (audioPlaybackTimer w).
    + by left.
Qed.

Lemma tick_uses_captured_source_witness :
  let w := Playback.run audio_config
             [AddToPlaybackBuffer (replicate 480 5%Z); StartAudioPlayback] (init (Some 1)) in
  Playback.tick audio_config 0 (setAudioSource (Some 2) w)
  = setAudioSource (Some 2) (Playback.tick audio_config 0 w).
Proof.
  intros w.
  refine (proj1 (tick_uses_captured_source audio_config w 0 1 _) (Some 2)).
  reflexivity.
Defined.

(** Started without a source, the engine is wedged: one step. *)
Lemma wedged_step cfg (w : world) (o : Playback.op) (h : nat) :
  is_reset o = false →
  audioPlaybackTimer w = Some h → intervals w = {[h := None]} →
  audioPlaybackTimer (Playback.step cfg w o) = Some h
  ∧ intervals (Playback.step cfg w o) = {[h := None]}
  ∧ onData_calls (Playback.step cfg w o) = onData_calls w.
Proof.
  intros Hr Ht Hi. destruct o as [s| |h'|s| |]; simpl; try done.
  - unfold startAudioPlayback. by rewrite Ht.
  - unfold Playback.tick. rewrite Hi.
    destruct (decide (h' = h)) as [->|Hne].
    + by rewrite lookup_singleton_eq.
    + rewrite lookup_singleton_ne by done. by rewrite <- Hi.
Qed.

(** X10. Started without an audio source, the engine never plays. If
    [startAudioPlayback] runs while the session has no audio source, its
    interval captured [null]: whatever follows short of a reset (appends,
    an audio source being installed, ticks, further starts), no frame is
    emitted and the timer never stops. *)
Theorem start_without_source_never_plays cfg (w : world) (ops : list Playback.op) :
  session_audioSource w = None →
  audioPlaybackTimer w = None →
  intervals w = ∅ →
  reset_free ops = true →
  onData_calls (Playback.run cfg ops (startAudioPlayback w)) = onData_calls w
  ∧ audioPlaybackTimer (Playback.run cfg ops (startAudioPlayback w)) = Some (next_handle w).
Proof.
  intros Hsrc Ht Hi Hfree.
  cut (audioPlaybackTimer (Playback.run cfg ops (startAudioPlayback w)) = Some (next_handle w)
       ∧ intervals (Playback.run cfg ops (startAudioPlayback w)) = {[next_handle w := None]}
       ∧ onData_calls (Playback.run cfg ops (startAudioPlayback w)) = onData_calls w).
  { by intros (? & _ & ?). }
  induction ops as [|o ops IH] using rev_ind.
  - unfold startAudioPlayback. rewrite Ht. simpl. rewrite Hsrc, Hi. done.
  - unfold reset_free in Hfree. rewrite forallb_app in Hfree.
    apply andb_true_iff in Hfree as [Hops Ho]. simpl in Ho.
    rewrite andb_true_r in Ho. apply negb_true_iff in Ho.
    destruct (IH Hops) as (IHt & IHi & IHc).
    rewrite run_snoc.
    destruct (wedged_step cfg _ o _ Ho IHt IHi) as (? & ? & Hc).
    split_and!; [done|done|]. by rewrite Hc.
Qed.

Lemma start_without_source_never_plays_witness :
  onData_calls (Playback.run audio_config
                  [AddToPlaybackBuffer (replicate 480 1%Z); SetAudioSource (Some 3);
                   StartAudioPlayback; Tick 0; Tick 0]
                  (startAudioPlayback (init None))) = [].
Proof.
  refine (proj1 (start_without_source_never_plays audio_config (init None)
                   [AddToPlaybackBuffer (replicate 480 1%Z); SetAudioSource (Some 3);
                    StartAudioPlayback; Tick 0; Tick 0] _ _ _ _)).
  - reflexivity.
  - reflexivity.
  - reflexivity.
  - reflexivity.
Defined.

(* ===================================================================== *)
(** ** The ingest path from payload to frames *)
(* ===================================================================== *)

(** Ticks that emit leave the timer as it is. *)
Lemma ticks_drain_timer cfg (h : nat) (s : sink) (k : nat) :
  ∀ w,
    intervals w !! h = Some (Some s) →
    k * FRAME_SIZE cfg ≤ length (elevenLabsAudioBuffer w) →
    intervals (Playback.run cfg (replicate k (Tick h)) w) = intervals w
    ∧ audioPlaybackTimer (Playback.run cfg (replicate k (Tick h)) w) = audioPlaybackTimer w.
Proof.
  induction k as [|k IH]; intros w Hlive Hlen; [done|].
  change (Playback.run cfg (replicate (S k) (Tick h)) w)
    with (Playback.run cfg (replicate k (Tick h)) (Playback.tick cfg h w)).
  rewrite Nat.mul_succ_l in Hlen.
  assert (Htick : Playback.tick cfg h w
    = onData s {| samples := take (FRAME_SIZE cfg) (elevenLabsAudioBuffer w);
                  sampleRate := Config.WHATSAPP_SAMPLE_RATE cfg;
                  bitsPerSample := 16;
                  channelCount := 1;
                  numberOfFrames := FRAME_SIZE cfg |}
        (set_buffer (drop (FRAME_SIZE cfg) (elevenLabsAudioBuffer w)) w)).
  { unfold Playback.tick. rewrite Hlive. unfold interval_callback.
    rewrite bool_decide_eq_true_2; [done|]. clear -Hlen. nia. }
  destruct (IH (Playback.tick cfg h w)) as (IHi & IHt).
  - by rewrite Htick.
  - rewrite Htick. simpl. rewrite length_drop. clear -Hlen. nia.
  - rewrite IHi, IHt, Htick. done.
Qed.

(** The state a first delivery of at least one sample leaves. *)
Lemma first_delivery (audioData : list Z) (s : sink) :
  2 ≤ length audioData →
  Handler.handleElevenLabsAudio audioData (init (Some s))
  = {| elevenLabsAudioBuffer := samples_of_bytes audioData;
       audioPlaybackTimer := Some 0;
       elevenLabsAudioCount := 1;
       intervals := {[0 := Some s]};
       next_handle := 1;
       session_audioSource := Some s;
       onData_calls := [] |}.
Proof.
  intros Hlen. rewrite (handler_is_playback_trace audio_config). simpl session_audioSource.
  rewrite bool_decide_eq_false_2 by lia.
  rewrite samples_of_bytes_even_prefix.
  unfold Playback.run. cbn -[samples_of_bytes]. by rewrite insert_empty.
Qed.

(** X11. From payload to silence. A first payload of exactly [k] frames
    (960 bytes each) starts the engine; [k] ticks emit its samples, in
    order, as [k] frames, and the next tick finds the buffer empty and
    stops the timer, leaving no interval behind. *)
Theorem delivery_drains_to_idle (audioData : list Z) (s : sink) (k : nat) :
  length audioData = 2 * (k * 480) →
  0 < k →
  let w := Playback.run audio_config (replicate (S k) (Tick 0))
             (Handler.handleElevenLabsAudio audioData (init (Some s))) in
  concat (emitted w) = samples_of_bytes audioData
  ∧ length (emitted w) = k
  ∧ elevenLabsAudioBuffer w = []
  ∧ audioPlaybackTimer w = None
  ∧ intervals w = ∅.
Proof.
  intros Hlen Hk w. subst w.
  rewrite first_delivery by lia.
  set (w0 := {| elevenLabsAudioBuffer := samples_of_bytes audioData;
                audioPlaybackTimer := Some 0; elevenLabsAudioCount := 1;
                intervals := {[0 := Some s]}; next_handle := 1;
                session_audioSource := Some s; onData_calls := [] |}).
  assert (Hbuf : length (elevenLabsAudioBuffer w0) = k * 480).
  { simpl. rewrite length_samples_of_bytes, Hlen.
    by rewrite (Nat.mul_comm 2), Nat.div_mul. }
  assert (Hlive : intervals w0 !! 0 = Some (Some s)) by apply lookup_singleton_eq.
  destruct (ticks_drain audio_config 0 s k w0 Hlive) as (Hc & Hl & Hb); [simpl in *; lia|].
  destruct (ticks_drain_timer audio_config 0 s k w0 Hlive) as (Hi & Ht); [simpl in *; lia|].
  rewrite replicate_S_end, run_snoc.
  set (w1 := Playback.run audio_config (replicate k (Tick 0)) w0) in *.
  change (FRAME_SIZE audio_config) with 480 in *.
  rewrite <- Hbuf, drop_all in Hb. rewrite <- Hbuf, firstn_all in Hc.
  assert (Hlast : Playback.step audio_config w1 (Tick 0)
                  = set_timer None (clearInterval (audioPlaybackTimer w1) w1)).
  { simpl. unfold Playback.tick. rewrite Hi, Hlive. unfold interval_callback.
    rewrite Hb. simpl. done. }
  rewrite Hlast, Ht. simpl. unfold emitted in *. simpl.
  rewrite Hc, Hl, Hb, Hi. simpl.
  split_and!; [done|done|done|done|apply delete_singleton_eq].
Qed.

Lemma delivery_drains_to_idle_witness :
  audioPlaybackTimer
    (Playback.run audio_config (replicate 2 (Tick 0))
       (Handler.handleElevenLabsAudio (replicate 960 7%Z) (init (Some 5)))) = None.
Proof.
  refine (proj1 (proj2 (proj2 (proj2
            (delivery_drains_to_idle (replicate 960 7%Z) 5 1 _ _))))).
  - reflexivity.
  - lia.
Defined.

Lemma handler_calls (audioData : list Z) (w : world) :
  onData_calls (Handler.handleElevenLabsAudio audioData w) = onData_calls w.
Proof.
  unfold Handler.handleElevenLabsAudio. destruct (session_audioSource w); [|done].
  case_bool_decide; [done|]. unfold startAudioPlayback. simpl.
  by destruct (audioPlaybackTimer w).
Qed.

Lemma handler_source (audioData : list Z) (w : world) :
  session_audioSource (Handler.handleElevenLabsAudio audioData w) = session_audioSource w.
Proof.
  unfold Handler.handleElevenLabsAudio. destruct (session_audioSource w) eqn:Hs; [|done].
  case_bool_decide; [done|]. unfold startAudioPlayback. simpl.
  by destruct (audioPlaybackTimer w).
Qed.

Lemma tick_source cfg (h : nat) (w : world) :
  session_audioSource (Playback.tick cfg h w) = session_audioSource w.
Proof.
  unfold Playback.tick. destruct (intervals w !! h) as [captured|]; [|done].
  destruct (interval_callback_cases cfg captured w)
    as [(s & _ & _ & ->)|[(_ & _ & _ & ->)|[_ ->]]]; simpl; try done.
  by destruct (audioPlaybackTimer w).
Qed.

Lemma handler_timer_has_sink (audioData : list Z) (w : world) :
  Ingest.timer_has_sink w → Ingest.timer_has_sink (Handler.handleElevenLabsAudio audioData w).
Proof.
  unfold Ingest.timer_has_sink, Handler.handleElevenLabsAudio.
  destruct (session_audioSource w) as [src|] eqn:Hs; [|done].
  case_bool_decide; [done|]. unfold startAudioPlayback. simpl.
  destruct (audioPlaybackTimer w) eqn:Ht; simpl.
  - by rewrite Ht.
  - intros ->. rewrite Hs, insert_empty. by eexists.
Qed.

Lemma tick_timer_has_sink cfg (h : nat) (w : world) :
  Ingest.timer_has_sink w → Ingest.timer_has_sink (Playback.tick cfg h w).
Proof.
  unfold Ingest.timer_has_sink, Playback.tick. intros Hinv.
  destruct (intervals w !! h) as [captured|]; [|done].
  destruct (interval_callback_cases cfg captured w)
    as [(s & _ & _ & ->)|[(_ & _ & _ & ->)|[_ ->]]]; simpl; try done.
  destruct (audioPlaybackTimer w) as [t|]; simpl; [|done].
  destruct Hinv as [s ->]. apply delete_singleton_eq.
Qed.

Lemma ingest_step_timer_has_sink cfg (w : world) (e : Ingest.event) :
  Ingest.timer_has_sink w → Ingest.timer_has_sink (Ingest.step cfg w e).
Proof.
  destruct e as [audioData|h|s|]; simpl.
  - apply handler_timer_has_sink.
  - apply tick_timer_has_sink.
  - done.
  - unfold Ingest.timer_has_sink, Handler.cleanupConnections, resetPlayback. simpl.
    destruct (audioPlaybackTimer w) as [t|] eqn:Ht; simpl.
    + intros [s0 ->]. apply delete_singleton_eq.
    + by rewrite Ht.
Qed.

Lemma ingest_run_snoc cfg events e w :
  Ingest.run cfg (events ++ [e]) w = Ingest.step cfg (Ingest.run cfg events w) e.
Proof. unfold Ingest.run. by rewrite foldl_app. Qed.

(** X12. Driven by its callers, the engine cannot be wedged. Over any
    sequence of deliveries, interval firings, changes of audio source and
    cleanups, a running timer is the host's only interval and its callback
    holds a non-null audio source; so whenever the timer is running and a
    full frame is buffered, its tick emits one. *)
Theorem ingest_timer_has_sink cfg (src : option sink) (events : list Ingest.event) :
  Ingest.timer_has_sink (Ingest.run cfg events (init src))
  ∧ (∀ h, audioPlaybackTimer (Ingest.run cfg events (init src)) = Some h →
          FRAME_SIZE cfg ≤ length (elevenLabsAudioBuffer (Ingest.run cfg events (init src))) →
          length (onData_calls (Playback.tick cfg h (Ingest.run cfg events (init src))))
          = S (length (onData_calls (Ingest.run cfg events (init src))))).
Proof.
  assert (Hinv : Ingest.timer_has_sink (Ingest.run cfg events (init src))).
  { induction events as [|e events IH] using rev_ind; [done|].
    rewrite ingest_run_snoc. by apply ingest_step_timer_has_sink. }
  split; [done|]. intros h Ht Hlen.
  unfold Ingest.timer_has_sink in Hinv. rewrite Ht in Hinv. destruct Hinv as [s Hs].
  unfold Playback.tick. rewrite Hs, lookup_singleton_eq. unfold interval_callback.
  rewrite bool_decide_eq_true_2 by done. simpl. rewrite length_app. simpl. lia.
Qed.

Lemma ingest_timer_has_sink_witness :
  let w := Ingest.run audio_config
             [Ingest.SourceChanged (Some 6); Ingest.Deliver (replicate 960 1%Z)] (init None) in
  length (onData_calls (Playback.tick audio_config 0 w)) = S (length (onData_calls w)).
Proof.
  intros w.
  refine (proj2 (ingest_timer_has_sink audio_config None
            [Ingest.SourceChanged (Some 6); Ingest.Deliver (replicate 960 1%Z)]) 0 _ _).
  - reflexivity.
  - vm_compute. lia.
Defined.

Lemma ingest_delivered_snoc events e :
  Ingest.delivered (events ++ [e]) = Ingest.delivered events ++ Ingest.delivered [e].
Proof. unfold Ingest.delivered. by rewrite bind_app. Qed.

(** X13. Bytes in, frames out, in order. With an audio source installed,
    over any sequence of payloads and interval firings, the frames emitted
    followed by the buffered samples are the payloads read as 16-bit
    little-endian samples, one payload after the other, each without its odd
    trailing byte; and every frame goes to that audio source. *)
Theorem ingest_bytes_to_frames (s : sink) (events : list Ingest.event) :
  forallb Ingest.is_data events = true →
  concat (emitted (Ingest.run audio_config events (init (Some s))))
  ++ elevenLabsAudioBuffer (Ingest.run audio_config events (init (Some s)))
  = Ingest.delivered events
  ∧ Forall (λ call, call.1 = s) (onData_calls (Ingest.run audio_config events (init (Some s)))).
Proof.
  intros Hdata.
  cut (concat (emitted (Ingest.run audio_config events (init (Some s))))
       ++ elevenLabsAudioBuffer (Ingest.run audio_config events (init (Some s)))
       = Ingest.delivered events
       ∧ Forall (λ call, call.1 = s)
                (onData_calls (Ingest.run audio_config events (init (Some s))))
       ∧ session_audioSource (Ingest.run audio_config events (init (Some s))) = Some s
       ∧ (∀ h c, intervals (Ingest.run audio_config events (init (Some s))) !! h = Some c
                 → c = Some s)).
  { by intros (? & ? & _). }
  induction events as [|e events IH] using rev_ind.
  - split_and!; [done|constructor|done|]. intros h c. simpl. by rewrite lookup_empty.
  - rewrite forallb_app in Hdata. apply andb_true_iff in Hdata as [Hevents He].
    destruct (IH Hevents) as (IHs & IHc & IHsrc & IHi).
    rewrite ingest_run_snoc, ingest_delivered_snoc.
    set (w := Ingest.run audio_config events (init (Some s))) in *.
    destruct e as [audioData|h| |]; simpl in He; try discriminate; simpl Ingest.step.
    + split_and!.
      * unfold emitted. rewrite handler_calls, (handler_buffer _ _ s IHsrc).
        fold (emitted w). rewrite app_assoc, IHs.
        unfold Ingest.delivered at 2. simpl. by rewrite app_nil_r.
      * by rewrite handler_calls.
      * by rewrite handler_source.
      * intros h c. unfold Handler.handleElevenLabsAudio. rewrite IHsrc.
        case_bool_decide; [apply IHi|]. unfold startAudioPlayback. simpl.
        destruct (audioPlaybackTimer w); simpl; [apply IHi|].
        intros Hc. apply lookup_insert_Some in Hc as [[_ <-]|[_ Hc]]; [done|].
        by apply (IHi h).
    + split_and!.
      * rewrite tick_stream, IHs.
        unfold Ingest.delivered at 2. simpl. by rewrite app_nil_r.
      * unfold Playback.tick. destruct (intervals w !! h) as [captured|] eqn:Hh; [|done].
        destruct (interval_callback_cases audio_config captured w)
          as [(s0 & -> & _ & ->)|[(_ & _ & _ & ->)|[_ ->]]]; simpl; try done.
        -- apply Forall_app. split; [done|]. constructor; [|done]. simpl.
           apply IHi in Hh. congruence.
        -- by destruct (audioPlaybackTimer w).
      * by rewrite tick_source.
      * intros h' c. unfold Playback.tick.
        destruct (intervals w !! h) as [captured|] eqn:Hh; [|apply IHi].
        destruct (interval_callback_cases audio_config captured w)
          as [(s0 & _ & _ & ->)|[(_ & _ & _ & ->)|[_ ->]]]; simpl; try apply IHi.
        destruct (audioPlaybackTimer w) as [t|]; simpl; [|apply IHi].
        intros Hc. apply lookup_delete_Some in Hc as [_ Hc]. by apply (IHi h').
Qed.

Lemma ingest_bytes_to_frames_witness :
  let events := [Ingest.Deliver (replicate 961 1%Z); Ingest.Fire 0; Ingest.Deliver [2; 0; 3]%Z] in
  concat (emitted (Ingest.run audio_config events (init (Some 8))))
  ++ elevenLabsAudioBuffer (Ingest.run audio_config events (init (Some 8)))
  = Ingest.delivered events.
Proof.
  intros events.
  refine (proj1 (ingest_bytes_to_frames 8 events _)).
  reflexivity.
Defined.

(* ===================================================================== *)
(** ** More on the upsampling handler *)
(* ===================================================================== *)

Lemma interpolate_first (ratio : nat) (a b : Z) : interpolate ratio a b 0 = a.
Proof.
  unfold interpolate.
  assert (Ht : (Z.of_nat 0 # Pos.of_nat ratio == 0)%Q) by reflexivity.
  set (t := (Z.of_nat 0 # Pos.of_nat ratio)%Q) in *.
  cut (a ≤ Math_round (inject_Z a * (1 - t) + inject_Z b * t) ≤ a)%Z; [lia|].
  apply Math_round_between; rewrite Ht; lra.
Qed.

(** X14. The input samples survive upsampling. Every input sample but the
    last appears unchanged in the output, at [ratio] times its index. *)
Theorem upsample_keeps_input_samples (ratio : nat) (samples16k : list Z) (i : nat) (a b : Z) :
  0 < ratio →
  samples16k !! i = Some a →
  samples16k !! (i + 1) = Some b →
  int16 a →
  upsample ratio samples16k !! (i * ratio) = Some a.
Proof.
  intros Hr Ha Hb Hia.
  apply lookup_lt_Some in Hb as Hlen.
  rewrite upsample_lookup, decide_True by nia.
  rewrite Nat.div_mul, Nat.Div0.mod_mul by lia.
  unfold stored, read. rewrite Ha, Hb. simpl.
  rewrite interpolate_first. by rewrite to_int16_id.
Qed.

Lemma upsample_keeps_input_samples_witness :
  upsample 3 [5; -7; 9]%Z !! (1 * 3) = Some (-7)%Z.
Proof.
  refine (upsample_keeps_input_samples 3 [5; -7; 9]%Z 1 (-7) 9 _ _ _ _).
  - lia.
  - reflexivity.
  - reflexivity.
  - unfold int16. lia.
Defined.

Lemma read_in_range (l : list Z) (i : nat) (lo hi : Z) :
  Forall (λ v, lo ≤ v ≤ hi)%Z l → i < length l → (lo ≤ read l i ≤ hi)%Z.
Proof.
  intros Hall Hi. unfold read.
  destruct (lookup_lt_is_Some_2 l i Hi) as [x Hx]. rewrite Hx. simpl.
  by apply (Forall_lookup_1 _ _ _ _ Hall Hx).
Qed.

(** X15. Upsampling never overshoots. If the input samples lie in a range
    of 16-bit values that contains 0, so does every output sample: each is
    between the two inputs it interpolates, or is one of the trailing
    zeros. *)
Theorem upsample_stays_in_range (ratio : nat) (samples16k : list Z) (lo hi : Z)
    (p : nat) (x : Z) :
  (-32768 ≤ lo ≤ 0)%Z → (0 ≤ hi < 32768)%Z →
  Forall (λ v, lo ≤ v ≤ hi)%Z samples16k →
  upsample ratio samples16k !! p = Some x →
  (lo ≤ x ≤ hi)%Z.
Proof.
  intros Hlo Hhi Hall. rewrite upsample_lookup.
  destruct (decide (p < (length samples16k - 1) * ratio)) as [Hp|Hp].
  - intros [= <-].
    assert (Hr : 0 < ratio) by (destruct ratio; lia).
    assert (Hi : p / ratio < length samples16k - 1).
    { apply Nat.Div0.div_lt_upper_bound. lia. }
    pose proof (Nat.mod_upper_bound p ratio ltac:(lia)) as Hj.
    pose proof (read_in_range samples16k (p / ratio) lo hi Hall ltac:(lia)) as H1.
    pose proof (read_in_range samples16k (p / ratio + 1) lo hi Hall ltac:(lia)) as H2.
    pose proof (interpolate_between ratio (read samples16k (p / ratio))
                  (read samples16k (p / ratio + 1)) (p mod ratio) Hj) as Hb.
    unfold stored. rewrite to_int16_id by (unfold int16; lia). lia.
  - case_decide; [|done]. intros [= <-]. lia.
Qed.

Lemma upsample_stays_in_range_witness :
  (-10 ≤ 100 ≤ 300)%Z.
Proof.
  refine (upsample_stays_in_range 3 [0; 300; -10]%Z (-10) 300 1 100 _ _ _ _).
  - lia.
  - lia.
  - repeat constructor; lia.
  - vm_compute. reflexivity.
Defined.

(** X16. One frame of three times as many samples, or none. With an audio
    source present and the payload Buffer at an even offset of its
    ArrayBuffer, the upsampling handler hands the sink exactly one frame: it
    announces 48 kHz and as many frames as it holds samples, three for each
    whole 16-bit sample of the payload, all of them 16-bit values. At an
    odd offset the typed-array view cannot be made and the sink receives
    nothing, as when there is no audio source. *)
Theorem legacy_frame_shape (src : sink) (byteOffset : nat) (audioData : list Z) :
  Legacy.handleElevenLabsAudio None byteOffset audioData = None
  ∧ (byteOffset mod 2 ≠ 0 →
     Legacy.handleElevenLabsAudio (Some src) byteOffset audioData = None)
  ∧ (byteOffset mod 2 = 0 →
     ∃ frame,
       Legacy.handleElevenLabsAudio (Some src) byteOffset audioData = Some (src, frame)
       ∧ length (samples frame) = 3 * (length audioData / 2)
       ∧ numberOfFrames frame = length (samples frame)
       ∧ sampleRate frame = 48000%Z
       ∧ Forall int16 (samples frame)).
Proof.
  split_and!; [done| |].
  - intros Hodd. unfold Legacy.handleElevenLabsAudio.
    by rewrite bool_decide_eq_true_2.
  - intros Heven. unfold Legacy.handleElevenLabsAudio.
    rewrite bool_decide_eq_false_2 by (intros Hne; by apply Hne).
    eexists. split; [reflexivity|]. cbn [samples numberOfFrames sampleRate].
    change (Z.to_nat (WHATSAPP_SAMPLE_RATE `div` ELEVENLABS_SAMPLE_RATE)) with 3.
    rewrite length_upsample, length_samples_of_bytes.
    split_and!; [apply Nat.mul_comm|done|done|].
    apply Forall_lookup. intros p x Hx. unfold int16.
    cut (-32768 ≤ x ≤ 32767)%Z; [lia|].
    apply (upsample_stays_in_range 3 (samples_of_bytes audioData) _ _ p); [lia|lia| |done].
    eapply Forall_impl; [apply samples_of_bytes_int16|].
    unfold int16. intros v. simpl. lia.
Qed.

Lemma legacy_frame_shape_witness :
  Legacy.handleElevenLabsAudio (Some 1) 3 [0; 0; 44; 1]%Z = None
  ∧ ∃ frame,
      Legacy.handleElevenLabsAudio (Some 1) 8 [0; 0; 44; 1]%Z = Some (1, frame)
      ∧ length (samples frame) = 3 * (length [0; 0; 44; 1]%Z / 2)
      ∧ numberOfFrames frame = length (samples frame)
      ∧ sampleRate frame = 48000%Z
      ∧ Forall int16 (samples frame).
Proof.
  split.
  - refine (proj1 (proj2 (legacy_frame_shape 1 3 [0; 0; 44; 1]%Z)) _).
    vm_compute. discriminate.
  - refine (proj2 (proj2 (legacy_frame_shape 1 8 [0; 0; 44; 1]%Z)) _).
    reflexivity.
Defined.

(* ===================================================================== *)
(** ** The mu-law table *)
(* ===================================================================== *)

Import Mulaw.

(** A check that holds of each of the 256 bytes holds of every byte. *)
Lemma byte_cases (P : Z → bool) :
  forallb P ((λ i, Z.of_nat i) <$> seq 0 256) = true →
  ∀ b, is_byte b → P b = true.
Proof.
  intros Hall b [Hlo Hhi]. rewrite forallb_forall in Hall. apply Hall.
  apply list_elem_of_In, list_elem_of_fmap. exists (Z.to_nat b). split; [lia|].
  apply elem_of_seq. lia.
Qed.

(** Reading the table at a byte gives that byte's entry. *)
Lemma table_read (b : Z) : is_byte b → read MULAW_DECODE_TABLE (Z.to_nat b) = table_entry b.
Proof.
  intros [Hlo Hhi]. unfold read, MULAW_DECODE_TABLE.
  rewrite list_lookup_fmap, lookup_seq_lt by lia. simpl. f_equal. lia.
Qed.

(** X17. The decoded values. For every byte the table entry is a 16-bit
    value of magnitude at most 32124, computed without wrap-around; bytes
    below 0x80 decode to values at most 0, the others to values at least 0;
    flipping the top bit of the byte negates the value; and the value is 0
    exactly for the bytes 0x7F and 0xFF. *)
Theorem mulaw_table_values (b : Z) :
  is_byte b →
  (-32124 ≤ read MULAW_DECODE_TABLE (Z.to_nat b) ≤ 32124)%Z
  ∧ (b < 128 → read MULAW_DECODE_TABLE (Z.to_nat b) ≤ 0)%Z
  ∧ (128 ≤ b → 0 ≤ read MULAW_DECODE_TABLE (Z.to_nat b))%Z
  ∧ read MULAW_DECODE_TABLE (Z.to_nat (Z.lxor b 0x80))
    = (- read MULAW_DECODE_TABLE (Z.to_nat b))%Z
  ∧ (read MULAW_DECODE_TABLE (Z.to_nat b) = 0%Z ↔ b = 0x7F%Z ∨ b = 0xFF%Z).
Proof.
  intros Hb.
  assert (Hflip : is_byte (Z.lxor b 0x80)).
  { assert (Hcheck : forallb (λ b, bool_decide (is_byte (Z.lxor b 0x80)))
                       ((λ i, Z.of_nat i) <$> seq 0 256) = true) by (vm_compute; reflexivity).
    apply byte_cases with (b := b) in Hcheck; [|done].
    by apply bool_decide_eq_true_1 in Hcheck. }
  rewrite !table_read by done.
  assert (Hcheck : forallb
    (λ b, bool_decide (-32124 ≤ table_entry b ≤ 32124)%Z
          && bool_decide (b < 128 → table_entry b ≤ 0)%Z
          && bool_decide (128 ≤ b → 0 ≤ table_entry b)%Z
          && bool_decide (table_entry (Z.lxor b 0x80) = - table_entry b)%Z
          && bool_decide (table_entry b = 0%Z ↔ b = 0x7F%Z ∨ b = 0xFF%Z))
    ((λ i, Z.of_nat i) <$> seq 0 256) = true) by (vm_compute; reflexivity).
  apply byte_cases with (b := b) in Hcheck; [|done].
  repeat (apply andb_true_iff in Hcheck as [Hcheck ?%bool_decide_eq_true_1]).
  apply bool_decide_eq_true_1 in Hcheck. done.
Qed.

Lemma mulaw_table_values_witness :
  read MULAW_DECODE_TABLE (Z.to_nat (Z.lxor 0x00 0x80))
  = (- read MULAW_DECODE_TABLE (Z.to_nat 0x00))%Z.
Proof.
  refine (proj1 (proj2 (proj2 (proj2 (mulaw_table_values 0x00 _))))).
  unfold is_byte. lia.
Defined.

(** Along the codes of one sign, a larger byte decodes to a value nearer
    0: one step. *)
Lemma mulaw_table_step (b : Z) :
  is_byte b → (b ≠ 127 → b ≠ 255 →
  Z.abs (table_entry (b + 1)) < Z.abs (table_entry b))%Z.
Proof.
  intros Hb.
  assert (Hcheck : forallb
    (λ b, bool_decide (b ≠ 127 → b ≠ 255 →
                       Z.abs (table_entry (b + 1)) < Z.abs (table_entry b))%Z)
    ((λ i, Z.of_nat i) <$> seq 0 256) = true) by (vm_compute; reflexivity).
  apply byte_cases with (b := b) in Hcheck; [|done].
  by apply bool_decide_eq_true_1 in Hcheck.
Qed.

(** X18. The table is strictly monotone on each sign. For two bytes in the
    same half ([0, 128) or [128, 256)) the larger byte decodes to the value
    of strictly smaller magnitude; so within a half no two bytes decode to
    the same value. *)
Theorem mulaw_table_monotone (a b : Z) :
  is_byte a → is_byte b →
  (a < b)%Z →
  (b < 128 ∨ 128 ≤ a)%Z →
  (Z.abs (read MULAW_DECODE_TABLE (Z.to_nat b))
   < Z.abs (read MULAW_DECODE_TABLE (Z.to_nat a)))%Z.
Proof.
  intros Ha Hb Hlt Hhalf. rewrite !table_read by done.
  replace b with (a + 1 + Z.of_nat (Z.to_nat (b - a - 1)))%Z by lia.
  assert (Hrange : (a + 1 + Z.of_nat (Z.to_nat (b - a - 1)) ≤ b)%Z) by lia.
  induction (Z.to_nat (b - a - 1)) as [|n IH].
  - rewrite Z.add_0_r. apply mulaw_table_step; [done|unfold is_byte in *; lia..].
  - etrans; [|apply IH; lia].
    replace (a + 1 + Z.of_nat (S n))%Z with (a + 1 + Z.of_nat n + 1)%Z by lia.
    apply mulaw_table_step; unfold is_byte in *; lia.
Qed.

Lemma mulaw_table_monotone_witness :
  (Z.abs (read MULAW_DECODE_TABLE (Z.to_nat 200))
   < Z.abs (read MULAW_DECODE_TABLE (Z.to_nat 130)))%Z.
Proof.
  refine (mulaw_table_monotone 130 200 _ _ _ _).
  - unfold is_byte. lia.
  - unfold is_byte. lia.
  - lia.
  - lia.
Defined.

(** X19. Decoding a buffer. [decodeMulaw] returns one 16-bit sample per
    byte, of magnitude at most 32124, and decoding a buffer with the top
    bit of every byte flipped gives the negated samples. *)
Theorem decodeMulaw_samples (mulawData : list Z) :
  Forall is_byte mulawData →
  length (decodeMulaw mulawData) = length mulawData
  ∧ Forall (λ x, -32124 ≤ x ≤ 32124)%Z (decodeMulaw mulawData)
  ∧ decodeMulaw ((λ b, Z.lxor b 0x80) <$> mulawData) = Z.opp <$> decodeMulaw mulawData.
Proof.
  intros Hall. unfold decodeMulaw. split_and!.
  - by rewrite length_fmap.
  - apply Forall_fmap. eapply Forall_impl; [exact Hall|].
    intros b Hb. simpl. by destruct (mulaw_table_values b Hb) as (? & _).
  - rewrite <- !list_fmap_compose. apply Forall_fmap_ext_1.
    eapply Forall_impl; [exact Hall|]. intros b Hb. simpl.
    by destruct (mulaw_table_values b Hb) as (_ & _ & _ & ? & _).
Qed.

Lemma decodeMulaw_samples_witness :
  length (decodeMulaw [0; 127; 128; 255]%Z) = 4.
Proof.
  refine (proj1 (decodeMulaw_samples [0; 127; 128; 255]%Z _)).
  repeat constructor; unfold is_byte; lia.
Defined.

(* ===================================================================== *)
(** ** Cleanup in the single-file server *)
(* ===================================================================== *)

(** X20. The single-file server's cleanup stops nothing. Its
    [cleanupConnections] leaves the playback buffer, the timer variable and
    the host's interval as they are; with the audio source gone every tick
    of the interval is a no-op, so the timer never clears itself; and once
    the next call installs an audio source, the next tick plays the samples
    left over from the previous call to it. *)
Theorem monolith_cleanup_keeps_timer cfg (w : world) (h : nat) (next_source : sink) :
  is_Some (intervals w !! h) →
  FRAME_SIZE cfg ≤ length (elevenLabsAudioBuffer w) →
  let w' := Monolith.cleanupConnections w in
  elevenLabsAudioBuffer w' = elevenLabsAudioBuffer w
  ∧ audioPlaybackTimer w' = audioPlaybackTimer w
  ∧ intervals w' = intervals w
  ∧ Monolith.tick cfg h w' = w'
  ∧ ∃ frame,
      onData_calls (Monolith.tick cfg h (setAudioSource (Some next_source) w'))
      = onData_calls w ++ [(next_source, frame)]
      ∧ samples frame = take (FRAME_SIZE cfg) (elevenLabsAudioBuffer w).
Proof.
  intros [c Hlive] Hlen w'. subst w'. split_and!; try done.
  - unfold Monolith.tick. simpl. by rewrite Hlive.
  - unfold Monolith.tick, Monolith.interval_callback. simpl. rewrite Hlive.
    rewrite bool_decide_eq_true_2 by done. simpl. by eexists.
Qed.

Lemma monolith_cleanup_keeps_timer_witness :
  let w := Playback.run audio_config
             [AddToPlaybackBuffer (replicate 480 9%Z); StartAudioPlayback] (init (Some 1)) in
  Monolith.tick audio_config 0 (Monolith.cleanupConnections w) = Monolith.cleanupConnections w.
Proof.
  intros w.
  refine (proj1 (proj2 (proj2 (proj2 (monolith_cleanup_keeps_timer audio_config w 0 2 _ _))))).
  - vm_compute. by eexists.
  - vm_compute. lia.
Defined.

(* ===================================================================== *)
(** ** Messages from the socket *)
(* ===================================================================== *)

Import Messages.

Section MessageFacts.
Variable base64_decode : string → list Z.
Variable JSON_parse : list Z → option message.

(** X21. A ping is answered once, with its own event id, and only on an
    open socket. For a message of type ["ping"]: if the socket is OPEN, one
    pong carrying the ping's [event_id] is appended to what was sent and
    nothing else changes; otherwise nothing changes at all. The playback
    state is never touched. *)
Theorem ping_is_answered_with_its_id (m : message) (l : link) :
  type m = "ping" →
  playback (handleElevenLabsMessage base64_decode m l) = playback l
  ∧ conversationId (handleElevenLabsMessage base64_decode m l) = conversationId l
  ∧ match elevenLabsWs l with
    | Some ws =>
        if Bridge.ready_state_eqb (readyState ws) OPEN
        then elevenLabsWs (handleElevenLabsMessage base64_decode m l)
             = Some {| readyState := OPEN; outbox := outbox ws ++ [Pong (ping_event_id m)] |}
        else handleElevenLabsMessage base64_decode m l = l
    | None => handleElevenLabsMessage base64_decode m l = l
    end.
Proof.
  intros Hty. unfold handleElevenLabsMessage. rewrite Hty. simpl.
  destruct (elevenLabsWs l) as [ws|]; [|done].
  destruct (readyState ws) eqn:Hr; simpl; rewrite ?Hr; done.
Qed.

(** X22. Each kind of message touches only its own part of the state.
    Whatever the message, the socket's state never changes and what was
    already sent stays sent; only a message of type ["audio"] can change the
    playback state, only a ["ping"] can send, and only a
    ["conversation_initiation_metadata"] can change the conversation id. *)
Theorem message_effects_are_separate (m : message) (l : link) :
  (type m ≠ "audio" → playback (handleElevenLabsMessage base64_decode m l) = playback l)
  ∧ (type m ≠ "ping" → elevenLabsWs (handleElevenLabsMessage base64_decode m l) = elevenLabsWs l)
  ∧ (type m ≠ "conversation_initiation_metadata" →
     conversationId (handleElevenLabsMessage base64_decode m l) = conversationId l)
  ∧ (readyState <$> elevenLabsWs (handleElevenLabsMessage base64_decode m l))
    = (readyState <$> elevenLabsWs l)
  ∧ (∀ ws, elevenLabsWs l = Some ws →
           ∃ ws' more, elevenLabsWs (handleElevenLabsMessage base64_decode m l) = Some ws'
                       ∧ outbox ws' = outbox ws ++ more).
Proof.
  unfold handleElevenLabsMessage.
  destruct (String.eqb_spec (type m) "conversation_initiation_metadata") as [Hc|Hc].
  { rewrite Hc. split_and!; try done. intros ws ->. exists ws, []. by rewrite app_nil_r. }
  destruct (String.eqb_spec (type m) "audio") as [Ha|Ha].
  { split_and!; try done;
      try (repeat (match goal with |- context [if ?b then _ else _] => destruct b end); done).
    intros ws Hws. exists ws, []. rewrite app_nil_r.
    repeat (match goal with |- context [if ?b then _ else _] => destruct b end); done. }
  destruct (String.eqb_spec (type m) "ping") as [Hp|Hp].
  { destruct (elevenLabsWs l) as [ws0|] eqn:Hws0.
    - destruct (Bridge.ready_state_eqb (readyState ws0) OPEN) eqn:Hr; simpl.
      + split_and!; try done. intros ws [= <-]. by eexists _, _.
      + rewrite Hws0. split_and!; try done. intros ws [= <-]. exists ws0, [].
        by rewrite app_nil_r.
    - rewrite Hws0. split_and!; done. }
  split_and!; try done. intros ws ->. exists ws, []. by rewrite app_nil_r.
Qed.

(** X23. Audio that starts with a brace is not played. The listener takes a
    message whose first byte is 0x7B for JSON: if it does not parse, it is
    dropped and the playback buffer keeps its contents, although the same
    bytes handed to the audio handler would have appended their samples.
    Any other message, the empty one included, goes to the audio handler
    whole. *)
Theorem brace_first_byte_is_not_audio (messageData : list Z) (l : link) (src : sink) :
  session_audioSource (playback l) = Some src →
  (messageData !! 0 = Some 0x7b%Z → JSON_parse messageData = None →
   on_message base64_decode JSON_parse messageData l = l
   ∧ elevenLabsAudioBuffer (Handler.handleElevenLabsAudio messageData (playback l))
     = elevenLabsAudioBuffer (playback l) ++ samples_of_bytes messageData)
  ∧ (messageData !! 0 ≠ Some 0x7b%Z →
     elevenLabsAudioBuffer (playback (on_message base64_decode JSON_parse messageData l))
     = elevenLabsAudioBuffer (playback l) ++ samples_of_bytes messageData).
Proof.
  intros Hsrc. unfold on_message. split.
  - intros Hfirst Hparse. rewrite bool_decide_eq_true_2, Hparse by done.
    split; [done|]. by apply (handler_buffer _ _ src).
  - intros Hfirst. rewrite bool_decide_eq_false_2 by done. simpl.
    by apply (handler_buffer _ _ src).
Qed.

End MessageFacts.

Lemma ping_is_answered_with_its_id_witness :
  let m := {| type := "ping"; audio := None; audio_event_audio_base_64 := None;
              ping_event_id := Some 42%Z; metadata_event_conversation_id := None;
              conversation_id := None |} in
  let l := {| playback := init None;
              elevenLabsWs := Some {| readyState := OPEN; outbox := [] |};
              conversationId := None |} in
  playback (handleElevenLabsMessage (λ _, []) m l) = playback l.
Proof.
  intros m l.
  refine (proj1 (ping_is_answered_with_its_id (λ _, []) m l _)).
  reflexivity.
Defined.

Lemma message_effects_are_separate_witness :
  let m := {| type := "interruption"; audio := Some "AAAA";
              audio_event_audio_base_64 := None;
              ping_event_id := None; metadata_event_conversation_id := None;
              conversation_id := None |} in
  let l := {| playback := init (Some 1); elevenLabsWs := None; conversationId := None |} in
  playback (handleElevenLabsMessage (λ _, [0; 0; 0]%Z) m l) = playback l.
Proof.
  intros m l.
  refine (proj1 (message_effects_are_separate (λ _, [0; 0; 0]%Z) m l) _).
  discriminate.
Defined.

Lemma brace_first_byte_is_not_audio_witness :
  let l := {| playback := init (Some 1); elevenLabsWs := None; conversationId := None |} in
  on_message (λ _, []) (λ _, None) [0x7b; 0; 1; 0]%Z l = l.
Proof.
  intros l.
  refine (proj1 (proj1 (brace_first_byte_is_not_audio (λ _, []) (λ _, None)
                          [0x7b; 0; 1; 0]%Z l 1 _) _ _)).
  - reflexivity.
  - reflexivity.
  - reflexivity.
Defined.
